(** * discord-smf: the Discord-to-log bridge bot (bot/discordsmf.py)

    A shallow embedding of the module: the [BotConfig] property getters,
    the [on_ready] entity resolution, the three message handlers, the
    heartbeat coroutine and [quit], followed by the properties of the
    specification checked against them.

    Python strings are kept as [string] (their UTF-8 bytes); formatting by
    [str.format] with [{}] fields is string concatenation.  The builtins
    whose tables live outside the repository ([str.casefold], [int()],
    [float()] and configparser's value interpolation) are the fields of
    the [Builtins] interface: every theorem holds for whatever they
    compute, and [ascii_builtins] instantiates them on ASCII text. *)

From Stdlib Require Import QArith Lqa.
From stdpp Require Import base option list strings gmap pretty.

Set Default Proof Using "Type".
Local Open Scope string_scope.
Local Open Scope list_scope.

(** ** Exceptions and fallible computations *)

Inductive exn :=
  | StopIteration
  | AttributeError
  | ValueError
  | TypeError
  | InterpolationError.

Inductive result (A : Type) :=
  | Ok (a : A)
  | Raise (e : exn).
Arguments Ok {A} a.
Arguments Raise {A} e.

#[global] Instance result_ret : MRet result := fun _ a => Ok a.
#[global] Instance result_bind : MBind result := fun _ _ f r =>
  match r with Ok a => f a | Raise e => Raise e end.

(** [try: body except: handler] with a bare [except] clause. *)
Definition try_except {A} (body : result A) (handler : exn → result A) : result A :=
  match body with Ok a => Ok a | Raise e => handler e end.

(** ** The discord.py objects the module reads *)

Module User.
Record t := mk { name : string; id : string }.
End User.

Module Member.
(** [nick] is [None] when the member has no per-server nickname. *)
Record t := mk { nick : option string; name : string }.
End Member.

Module Author.
(** Who sent a message: the server's [Member] when the client finds one
    for the sender, and otherwise the plain [User] (a webhook, somebody
    who left, a member the client has not loaded), which has no [nick]
    attribute. *)
Inductive t :=
  | IsMember (m : Member.t)
  | IsUser (u : User.t).
End Author.

Module Channel.
Record t := mk { id : string; name : string }.

(** discord.py compares channels by [id]; [c != None] is [True]. *)
Definition ne (c : t) (other : option t) : bool :=
  match other with
  | Some d => negb (String.eqb (id d) (id c))
  | None => true
  end.
End Channel.

Module Role.
Record t := mk { name : string; position : Z }.
End Role.

Module Server.
Record t := mk { id : string; name : string;
                 channels : list Channel.t; roles : list Role.t }.
End Server.

Module Message.
Record t := mk { id : string; author : Author.t; content : string;
                 channel : Channel.t }.
End Message.

(** ** Configuration values *)

Inductive datatype := Str | Bool | Int | Float.

Inductive value :=
  | VStr (s : string)
  | VBool (b : bool)
  | VInt (z : Z)
  | VFloat (q : Q).

(** A section of the parser: option name to raw text. *)
Abbreviation SectionProxy := (gmap string string).

(** [configparser.ConfigParser]: section name to section.  A key absent
    from the map is a section for which [name in parser] is false. *)
Abbreviation ConfigParser := (gmap string (gmap string string)).

Definition default_section : string := "DEFAULT".

Module BotConfig.
Record t := mk { path : string; config : ConfigParser }.
End BotConfig.

(** ASCII letters folded to lower case: what [str.casefold] and
    [str.lower] compute on ASCII text. *)
Definition lower_ascii (c : Ascii.ascii) : Ascii.ascii :=
  let n := Ascii.N_of_ascii c in
  if ((65 <=? n)%N && (n <=? 90)%N)%bool then Ascii.ascii_of_N (n + 32) else c.

Fixpoint casefold_ascii (s : string) : string :=
  match s with
  | EmptyString => EmptyString
  | String c r => String (lower_ascii c) (casefold_ascii r)
  end.

(** Digits of a decimal integer literal, most significant first. *)
Definition digit_of (c : Ascii.ascii) : option Z :=
  let n := Ascii.N_of_ascii c in
  if ((48 <=? n)%N && (n <=? 57)%N)%bool then Some (Z.of_N (n - 48)) else None.

Fixpoint digits_value (acc : Z) (s : string) : option Z :=
  match s with
  | EmptyString => Some acc
  | String c r =>
      match digit_of c with
      | Some d => digits_value (10 * acc + d) r
      | None => None
      end
  end.

(** The unsigned decimal fragment of [int()]: a non-empty run of digits. *)
Definition int_decimal (s : string) : option Z :=
  match s with
  | EmptyString => None
  | _ => digits_value 0 s
  end.

(** The same fragment read by [float()]. *)
Definition float_decimal (s : string) : option Q :=
  inject_Z <$> int_decimal s.

(** The one-character string written [\t] in the source. *)
Definition tab : string := String (Ascii.ascii_of_nat 9) EmptyString.

(** ** Logging, tasks and the module's global state *)

Inductive level := INFO | ERROR.

(** A record handed to the module's [logger]. *)
Definition record : Type := level * string.

Module Task.
Inductive status :=
  | Pending                (* suspended in [asyncio.sleep] *)
  | Cancelled              (* [cancel()] reached it *)
  | Finished               (* the coroutine returned *)
  | Failed (e : exn).      (* the coroutine raised *)

(** The task wrapping [heartbeat(interval)]. *)
Record t := mk { interval : option value; state : status }.

(** [task.cancel()]: only a task that is not done is affected. *)
Definition cancel (k : t) : t :=
  match state k with
  | Pending => mk (interval k) Cancelled
  | _ => k
  end.

Definition alive (k : t) : bool :=
  match state k with Pending => true | _ => false end.
End Task.

(** The module globals together with the state of [client] and the
    records emitted so far (oldest first). *)
Record World := mkWorld {
  config : BotConfig.t;
  client_user : User.t;
  client_servers : list Server.t;
  client_is_closed : bool;
  heartbeat_task : option Task.t;
  discord_server : option Server.t;
  discord_channel : option Channel.t;
  top_role : option Role.t;
  emitted : list record
}.

Definition set_is_closed (b : bool) (w : World) : World :=
  mkWorld (config w) (client_user w) (client_servers w) b (heartbeat_task w)
          (discord_server w) (discord_channel w) (top_role w) (emitted w).

Definition set_heartbeat_task (k : option Task.t) (w : World) : World :=
  mkWorld (config w) (client_user w) (client_servers w) (client_is_closed w) k
          (discord_server w) (discord_channel w) (top_role w) (emitted w).

Definition set_discord_server (s : option Server.t) (w : World) : World :=
  mkWorld (config w) (client_user w) (client_servers w) (client_is_closed w)
          (heartbeat_task w) s (discord_channel w) (top_role w) (emitted w).

Definition set_discord_channel (c : option Channel.t) (w : World) : World :=
  mkWorld (config w) (client_user w) (client_servers w) (client_is_closed w)
          (heartbeat_task w) (discord_server w) c (top_role w) (emitted w).

Definition set_top_role (r : option Role.t) (w : World) : World :=
  mkWorld (config w) (client_user w) (client_servers w) (client_is_closed w)
          (heartbeat_task w) (discord_server w) (discord_channel w) r (emitted w).

Definition emit (r : record) (w : World) : World :=
  mkWorld (config w) (client_user w) (client_servers w) (client_is_closed w)
          (heartbeat_task w) (discord_server w) (discord_channel w) (top_role w)
          (emitted w ++ [r]).

(** Is any heartbeat task still scheduled? *)
Definition heartbeat_alive (w : World) : bool :=
  match heartbeat_task w with
  | Some k => Task.alive k
  | None => false
  end.

(** ** Code that reads and writes the globals and may raise *)

Definition M (A : Type) : Type := World → result A * World.

#[global] Instance M_ret : MRet M := fun _ a w => (Ok a, w).
#[global] Instance M_bind : MBind M := fun _ _ f m w =>
  match m w with
  | (Ok a, w') => f a w'
  | (Raise e, w') => (Raise e, w')
  end.

Definition gets {A} (f : World → A) : M A := fun w => (Ok (f w), w).
Definition modify (f : World → World) : M unit := fun w => (Ok tt, f w).
Definition lift {A} (r : result A) : M A := fun w => (r, w).
Definition raise {A} (e : exn) : M A := fun w => (Raise e, w).

(** [logger.info(msg)] and [logger.error(msg)]. *)
Definition logger_info (msg : string) : M unit := modify (emit (INFO, msg)).
Definition logger_error (msg : string) : M unit := modify (emit (ERROR, msg)).

(** [client.close()]: nothing happens on a client that is closed. *)
Definition client_close : M unit :=
  modify (fun w => if client_is_closed w then w else set_is_closed true w).

(** The records a handler adds to [before] when started in it. *)
Definition output {A} (m : M A) (w : World) : list record :=
  drop (length (emitted w)) (emitted (m w).2).

(** ** Builtins taken as an interface *)

Class Builtins := {
  (** [str.casefold] *)
  casefold : string → string;
  (** configparser's interpolation of a raw value when it is read;
      it raises on a malformed [%] reference *)
  before_get : SectionProxy → string → result string;
  (** [int(s)] and [float(s)], [None] where they raise [ValueError] *)
  int_of : string → option Z;
  float_of : string → option Q
}.

Section Code.
Context `{Builtins}.

(** *** [_config_prop_build] and the [BotConfig] properties *)

(** [section.get(name)]: the fallback [None] for a missing option. *)
Definition SectionProxy_get (sec : SectionProxy) (name : string)
  : result (option string) :=
  match sec !! name with
  | None => Ok None
  | Some raw => s ← before_get sec raw; Ok (Some s)
  end.

(** configparser's [_convert_to_boolean]. *)
Definition convert_to_boolean (s : string) : result bool :=
  let v := casefold_ascii s in
  if existsb (String.eqb v) ["1"; "yes"; "true"; "on"] then Ok true
  else if existsb (String.eqb v) ["0"; "no"; "false"; "off"] then Ok false
  else Raise ValueError.

Definition convert {A} (conv : string → option A) (s : string) : result A :=
  match conv s with
  | Some a => Ok a
  | None => Raise ValueError
  end.

(** [section.getboolean], [section.getint], [section.getfloat]: the
    converter applied to the value that [get] returns, if any. *)
Definition SectionProxy_getconv {A} (conv : string → result A)
    (sec : SectionProxy) (name : string) : result (option A) :=
  v ← SectionProxy_get sec name;
  match v with
  | None => Ok None
  | Some s => a ← conv s; Ok (Some a)
  end.

Definition getboolean := SectionProxy_getconv convert_to_boolean.
Definition getint := SectionProxy_getconv (convert int_of).
Definition getfloat := SectionProxy_getconv (convert float_of).

(** The Python value a getter of the given datatype returns. *)
Definition returned {A} (tag : A → value) (r : result (option A))
  : result (option value) :=
  match r with
  | Ok o => Ok (tag <$> o)
  | Raise e => Raise e
  end.

(** The [get] closure of [_config_prop_build(name, datatype)]. *)
Definition config_prop_get (name : string) (dt : datatype)
    (self : BotConfig.t) : result (option value) :=
  match BotConfig.config self !! default_section with
  | None => Ok None
  | Some sec =>
      try_except
        (match dt with
         | Bool => returned VBool (getboolean sec name)
         | Int => returned VInt (getint sec name)
         | Float => returned VFloat (getfloat sec name)
         | Str => returned VStr (SectionProxy_get sec name)
         end)
        (fun _ => Ok None)
  end.

Definition log_path := config_prop_get "log_path" Str.
Definition server_name := config_prop_get "server_name" Str.
Definition channel_name := config_prop_get "channel_name" Str.
Definition send_interval := config_prop_get "send_interval" Float.
Definition token := config_prop_get "token" Str.

(** *** [on_ready] *)

(** Looking up a [str] method on a configuration value: only a string
    has one. *)
Definition str_receiver (v : option value) : result string :=
  match v with
  | Some (VStr s) => Ok s
  | _ => Raise AttributeError
  end.

(** [next((x for x in l if x.name.casefold() == find))] *)
Definition next_by_name {A} (name : A → string) (l : list A) (find : string)
  : result A :=
  match List.find (fun x => String.eqb (casefold (name x)) find) l with
  | Some x => Ok x
  | None => Raise StopIteration
  end.

(** [max(roles, key=lambda r: r.position)]: the first role of greatest
    position; [ValueError] on an empty sequence. *)
Definition max_by_position (roles : list Role.t) : result Role.t :=
  match roles with
  | [] => Raise ValueError
  | r :: rest =>
      Ok (fold_left
            (fun best x =>
               if (Role.position best <? Role.position x)%Z then x else best)
            rest r)
  end.

Definition on_ready : M unit :=
  logger_info "=== CONNECTED ===";;
  user ← gets client_user;
  logger_info ("Call me " +:+ User.name user +:+ " (" +:+ User.id user +:+ ")");;
  servers ← gets client_servers;
  logger_info ("Member of " +:+ pretty (length servers) +:+ " servers");;
  cfg ← gets config;
  sname ← lift (server_name cfg ≫= str_receiver);
  match next_by_name Server.name servers (casefold sname) with
  | Raise StopIteration =>
      logger_error ("Not a member of any server named '" +:+ sname +:+ "'!");;
      client_close
  | Raise e => raise e
  | Ok server =>
      modify (set_discord_server (Some server));;
      cname ← lift (channel_name cfg ≫= str_receiver);
      match next_by_name Channel.name (Server.channels server) (casefold cname) with
      | Raise StopIteration =>
          logger_error ("'" +:+ Server.name server
                        +:+ "' does not have any channels named '"
                        +:+ cname +:+ "'!");;
          client_close
      | Raise e => raise e
      | Ok channel =>
          modify (set_discord_channel (Some channel));;
          logger_info ("Listening to #" +:+ Channel.name channel +:+ " on '"
                       +:+ Server.name server +:+ "'");;
          role ← lift (max_by_position (Server.roles server));
          modify (set_top_role (Some role));;
          logger_info ("Treating members in '" +:+ Role.name role
                       +:+ "' a little bit better than everyone else")
      end
  end.

(** *** The message handlers *)

(** [m.nick or m.name] on a member: the name stands in for a nickname
    that is [None] or empty. *)
Definition nick_or_name (m : Member.t) : string :=
  match Member.nick m with
  | Some (String c r) => String c r
  | _ => Member.name m
  end.

(** [author.nick or author.name]: reading [nick] off an author that has
    no such attribute raises. *)
Definition display_name (author : Author.t) : result string :=
  match author with
  | Author.IsMember m => Ok (nick_or_name m)
  | Author.IsUser _ => Raise AttributeError
  end.

Definition on_message (message : Message.t) : M unit :=
  target ← gets discord_channel;
  if Channel.ne (Message.channel message) target then mret tt
  else
    who ← lift (display_name (Message.author message));
    logger_info ("<" +:+ who +:+ "> " +:+ Message.content message).

Definition on_message_edit (before after : Message.t) : M unit :=
  target ← gets discord_channel;
  if Channel.ne (Message.channel after) target then mret tt
  else if String.eqb (Message.content before) (Message.content after) then mret tt
  else
    who ← lift (display_name (Message.author after));
    logger_info ("EDITED: <" +:+ who +:+ "> "
                 +:+ Message.id before +:+ "->" +:+ Message.id after);;
    logger_info (tab +:+ Message.content before);;
    logger_info (tab +:+ Message.content after).

Definition on_message_delete (message : Message.t) : M unit :=
  target ← gets discord_channel;
  if Channel.ne (Message.channel message) target then mret tt
  else
    who ← lift (display_name (Message.author message));
    logger_info ("DELTEATED: <" +:+ who +:+ "> " +:+ Message.content message).

(** *** [heartbeat], [quit] and [main] *)

(** The delay handed to [asyncio.sleep]: a number, or [TypeError]. *)
Definition sleep_delay (v : option value) : result Q :=
  match v with
  | Some (VFloat q) => Ok q
  | Some (VInt z) => Ok (inject_Z z)
  | Some (VBool b) => Ok (if b then 1 else 0)%Q
  | Some (VStr _) | None => Raise TypeError
  end.

(** The body of the [while True] loop after [asyncio.sleep] has
    returned, for the task [k]. *)
Definition heartbeat_wake (k : Task.t) : M unit :=
  gets client_is_closed ≫= fun is_closed : bool =>
  if is_closed then
    modify (set_heartbeat_task (Some (Task.mk (Task.interval k) Task.Finished)))
  else logger_info "/thump/".

(** The event loop driving the heartbeat task alone from time [now] up
    to and including [deadline]: a pending task wakes when its sleep is
    over, runs its body and sleeps again.  [None] when [fuel] wake-ups
    do not reach the deadline. *)
Fixpoint run_heartbeat (fuel : nat) (now deadline : Q) (w : World)
  : option World :=
  match fuel with
  | O => None
  | S fuel' =>
      match heartbeat_task w with
      | Some k =>
          match Task.state k with
          | Task.Pending =>
              match sleep_delay (Task.interval k) with
              | Ok d =>
                  if Qle_bool (now + d) deadline then
                    run_heartbeat fuel' (now + d) deadline (heartbeat_wake k w).2
                  else Some w
              | Raise e =>
                  Some (set_heartbeat_task
                          (Some (Task.mk (Task.interval k) (Task.Failed e))) w)
              end
          | _ => Some w
          end
      | None => Some w
      end
  end.

Definition quit : M unit :=
  task ← gets heartbeat_task;
  match task with
  | Some k => modify (set_heartbeat_task (Some (Task.cancel k)))
  | None => mret tt
  end;;
  client_close.

(** [main] up to the blocking [client.run]: the heartbeat task is
    created with the configured interval. *)
Definition main_start : M unit :=
  logger_info "=== STARTED ===";;
  cfg ← gets config;
  interval ← lift (send_interval cfg);
  modify (set_heartbeat_task (Some (Task.mk interval Task.Pending))).

End Code.

(** ** A concrete instance and a scenario to run the code on *)

(** The builtins on plain ASCII text: [casefold] lower-cases, numbers are
    unsigned decimals, and a value is read back unchanged when it has no
    [%] in it (a [%] reference is outside this fragment and is refused). *)
Definition ascii_builtins : Builtins := {|
  casefold := casefold_ascii;
  before_get := fun _ raw =>
    if existsb (fun c => (Ascii.N_of_ascii c =? 37)%N) (String.list_ascii_of_string raw)
    then Raise InterpolationError else Ok raw;
  int_of := int_decimal;
  float_of := float_decimal
|}.

Module Scenario.
Definition general : Channel.t := Channel.mk "11" "General".
Definition random : Channel.t := Channel.mk "12" "random".
Definition everyone : Role.t := Role.mk "@everyone" 0.
Definition admins : Role.t := Role.mk "admins" 2.
Definition test : Server.t :=
  Server.mk "1" "test" [random; general] [everyone; admins].
Definition other : Server.t := Server.mk "2" "elsewhere" [] [everyone].

Definition settings (l : list (string * string)) : BotConfig.t :=
  BotConfig.mk "bot.ini" {[ default_section := list_to_map l ]}.

Definition cfg : BotConfig.t :=
  settings [("server_name", "Test"); ("channel_name", "general");
            ("send_interval", "30"); ("token", "abc")].

(** The same file without its [server_name] line. *)
Definition cfg_nameless : BotConfig.t :=
  settings [("channel_name", "general"); ("send_interval", "30");
            ("token", "abc")].

(** A [send_interval] that is not a number. *)
Definition cfg_soon : BotConfig.t :=
  settings [("server_name", "Test"); ("send_interval", "soon")].

(** A file with no [DEFAULT] section at all. *)
Definition cfg_empty : BotConfig.t := BotConfig.mk "bot.ini" ∅.

Definition bot : User.t := User.mk "smf" "99".

(** The state at import time, before [main] runs. *)
Definition initial (c : BotConfig.t) (servers : list Server.t) : World :=
  mkWorld c bot servers false None None None None [].

Definition bob : Member.t := Member.mk (Some "Bob") "robert".
Definition carol : Member.t := Member.mk None "carol".

Definition hi : Message.t := Message.mk "500" (Author.IsMember bob) "hi" general.
Definition hi_edited : Message.t :=
  Message.mk "500" (Author.IsMember bob) "hi!" general.
Definition hi_pinned : Message.t :=
  Message.mk "500" (Author.IsMember bob) "hi" general.
Definition aside : Message.t :=
  Message.mk "501" (Author.IsMember carol) "psst" random.

(** A sender the client holds no member for, posting on #General. *)
Definition hook : User.t := User.mk "deploy" "77".
Definition notice : Message.t :=
  Message.mk "503" (Author.IsUser hook) "build passed" general.
Definition notice_edited : Message.t :=
  Message.mk "503" (Author.IsUser hook) "build failed" general.

(** [main] has started the heartbeat; the client has connected. *)
Definition started (c : BotConfig.t) (servers : list Server.t) : World :=
  (@main_start ascii_builtins (initial c servers)).2.

(** ... and [on_ready] has run. *)
Definition ready (c : BotConfig.t) (servers : list Server.t) : World :=
  (@on_ready ascii_builtins (started c servers)).2.

(** The bot listening to #General on test; the bot started but not yet
    ready; the bot started in a client that only joined elsewhere. *)
Definition active : World := ready cfg [other; test].
Definition connecting : World := started cfg [other; test].
Definition stranded : World := started cfg [other].

(** The heartbeat task that [main] creates from [cfg]. *)
Definition ticker : Task.t := Task.mk (Some (VFloat (inject_Z 30))) Task.Pending.
End Scenario.

(** ** The rest of the module: setters, construction, event delivery *)

(** What writing a value into the parser needs from outside the
    repository. *)
Class Writing := {
  (** [str(x)] on a float *)
  float_repr : Q → string;
  (** the parser's [optionxform] on option names *)
  optionxform : string → string;
  (** the interpolation's check of a non-empty value about to be stored:
      the text to store, or [ValueError] on a malformed [%] *)
  before_set : string → result string
}.

Section Setters.
Context `{Writing}.

(** [str(value)] *)
Definition py_str (v : value) : string :=
  match v with
  | VStr s => s
  | VBool true => "True"
  | VBool false => "False"
  | VInt z => pretty z
  | VFloat q => float_repr q
  end.

(** [section[key] = text]: an empty text is stored unchecked. *)
Definition SectionProxy_setitem (sec : SectionProxy) (key text : string)
  : result SectionProxy :=
  stored ← (if String.eqb text "" then Ok text else before_set text);
  Ok (<[optionxform key := stored]> sec).

(** The [set] closure of [_config_prop_build(name, datatype)]: the object
    after the call, and whether the call raised. *)
Definition config_prop_set (name : string) (v : option value)
    (self : BotConfig.t) : result unit * BotConfig.t :=
  match v with
  | None => (Ok tt, self)
  | Some x =>
      let parser :=
        match BotConfig.config self !! default_section with
        | None => <[default_section := ∅]> (BotConfig.config self)
        | Some _ => BotConfig.config self
        end in
      match SectionProxy_setitem (default ∅ (parser !! default_section))
                                 name (py_str x) with
      | Ok sec =>
          (Ok tt, BotConfig.mk (BotConfig.path self)
                               (<[default_section := sec]> parser))
      | Raise e => (Raise e, BotConfig.mk (BotConfig.path self) parser)
      end
  end.

End Setters.

(** What [BotConfig.__init__] asks of the file system. *)
Class FileSystem := {
  (** [os.path.isfile] *)
  isfile : string → bool;
  (** [os.path.dirname] *)
  dirname : string → string;
  (** [os.access(_, os.W_OK)] *)
  access_W_OK : string → bool;
  (** [ConfigParser.read] on an existing file: the parser filled from its
      text, or [None] when the text does not parse *)
  read : string → option ConfigParser
}.

Inductive constructed :=
  | Built (self : BotConfig.t)
  | InitRaised (e : exn)
  | ReadRaised.

(** A fresh [configparser.ConfigParser()]: only the empty default
    section. *)
Definition fresh_parser : ConfigParser := {[ default_section := ∅ ]}.

(** [BotConfig(path)] *)
Definition BotConfig_init `{FileSystem} (path : string) : constructed :=
  if (negb (isfile path) && negb (access_W_OK (dirname path)))%bool then
    InitRaised ValueError
  else if isfile path then
    match read path with
    | Some parser => Built (BotConfig.mk path parser)
    | None => ReadRaised
    end
  else Built (BotConfig.mk path fresh_parser).

(** The three notifications the client delivers to the module. *)
Inductive event :=
  | Created (message : Message.t)
  | Edited (before after : Message.t)
  | Deleted (message : Message.t).

Definition dispatch (e : event) : M unit :=
  match e with
  | Created message => on_message message
  | Edited before after => on_message_edit before after
  | Deleted message => on_message_delete message
  end.

(** Events are delivered one after the other; what a callback returns
    or raises does not stop the next delivery. *)
Definition deliver_all (events : list event) (w : World) : World :=
  fold_left (fun w e => (dispatch e w).2) events w.

(** The writing side on plain ASCII text: option names are lower-cased,
    a text with a [%] in it is refused, and a float of integral value is
    printed as its digits followed by [.0]. *)
Definition ascii_writing : Writing := {|
  float_repr := fun q => pretty (Qnum q / Zpos (Qden q))%Z +:+ ".0";
  optionxform := casefold_ascii;
  before_set := fun text =>
    if existsb (fun c => (Ascii.N_of_ascii c =? 37)%N)
               (String.list_ascii_of_string text)
    then Raise ValueError else Ok text
|}.

Module Fixtures.
(** A directory where nothing exists and only [/srv/bot] is writable. *)
Definition empty_disk : FileSystem := {|
  isfile := fun _ => false;
  dirname := fun p => if String.eqb p "/srv/bot/bot.ini" then "/srv/bot" else "/";
  access_W_OK := fun d => String.eqb d "/srv/bot";
  read := fun _ => None
|}.

Definition mods : Role.t := Role.mk "mods" 2.

(** Two roles share the top position. *)
Definition tied : Server.t :=
  Server.mk "3" "Test" [Scenario.general]
            [Scenario.everyone; mods; Scenario.admins].

(** A server that lists no role at all. *)
Definition bare : Server.t := Server.mk "4" "Test" [Scenario.general] [].

Definition ghost : Member.t := Member.mk (Some "") "casper".
Definition boo : Message.t :=
  Message.mk "502" (Author.IsMember ghost) "boo" Scenario.general.

(** A configuration that names the server but no channel and no
    interval. *)
Definition cfg_server_only : BotConfig.t :=
  Scenario.settings [("server_name", "Test")].
End Fixtures.

(** ** Vocabulary for the rest of the module *)

(** Two states that differ at most in the records emitted. *)
Definition same_globals (w w' : World) : Prop :=
  config w' = config w
  ∧ client_user w' = client_user w
  ∧ client_servers w' = client_servers w
  ∧ client_is_closed w' = client_is_closed w
  ∧ heartbeat_task w' = heartbeat_task w
  ∧ discord_server w' = discord_server w
  ∧ discord_channel w' = discord_channel w
  ∧ top_role w' = top_role w.

(** The state after emitting the records [rs] in order. *)
Definition emit_all (rs : list record) (w : World) : World :=
  fold_left (fun w r => emit r w) rs w.

(** The channel an event is filed under: for an edit, the channel of the
    message as it is after the edit. *)
Definition event_channel (e : event) : Channel.t :=
  match e with
  | Created message => Message.channel message
  | Edited _ after => Message.channel after
  | Deleted message => Message.channel message
  end.

(** Does the event pass the handlers' guard for this target? *)
Definition on_target (target : option Channel.t) (e : event) : bool :=
  negb (Channel.ne (event_channel e) target).

(** The author an event's handler would name: for an edit, the author of
    the message as it is after the edit. *)
Definition event_author (e : event) : Author.t :=
  match e with
  | Created message => Message.author message
  | Edited _ after => Message.author after
  | Deleted message => Message.author message
  end.

(** Does the handler get as far as reading the author?  It does for an
    event on the target channel, unless it is an edit that left the
    content as it was. *)
Definition reads_author (target : option Channel.t) (e : event) : bool :=
  (on_target target e
   && match e with
      | Edited before after =>
          negb (String.eqb (Message.content before) (Message.content after))
      | _ => true
      end)%bool.

(** The text [s] converts to the value [v] of the datatype. *)
Definition converts `{Builtins} (dt : datatype) (s : string) (v : value) : Prop :=
  match dt with
  | Str => v = VStr s
  | Bool => ∃ b, convert_to_boolean s = Ok b ∧ v = VBool b
  | Int => ∃ z, int_of s = Some z ∧ v = VInt z
  | Float => ∃ q, float_of s = Some q ∧ v = VFloat q
  end.

(** The parser accepts the text of [x] and stores [raw] for it. *)
Definition stores `{Writing} (x : value) (raw : string) : Prop :=
  (py_str x = "" ∧ raw = "")
  ∨ (py_str x ≠ "" ∧ before_set (py_str x) = Ok raw).

(** ** Vocabulary of the statements *)

Section Vocabulary.
Context `{Builtins}.

(** The text [s] does not convert to the datatype. *)
Definition conversion_fails (dt : datatype) (s : string) : Prop :=
  match dt with
  | Str => False
  | Bool => convert_to_boolean s = Raise ValueError
  | Int => int_of s = None
  | Float => float_of s = None
  end.

(** The three ways a property has nothing to read: no default section,
    no such field in it, or a field whose text does not convert. *)
Definition unreadable (name : string) (dt : datatype) (self : BotConfig.t) : Prop :=
  BotConfig.config self !! default_section = None
  ∨ (∃ sec, BotConfig.config self !! default_section = Some sec
            ∧ sec !! name = None)
  ∨ (∃ sec raw s, BotConfig.config self !! default_section = Some sec
            ∧ sec !! name = Some raw
            ∧ before_get sec raw = Ok s
            ∧ conversion_fails dt s).

(** [e] is the first element of [l] whose case-folded name is [find]. *)
Definition first_match {A} (name : A → string) (l : list A) (find : string)
    (e : A) : Prop :=
  ∃ l1 l2, l = l1 ++ e :: l2
           ∧ casefold (name e) = find
           ∧ Forall (fun x => casefold (name x) ≠ find) l1.

Definition no_match {A} (name : A → string) (l : list A) (find : string) : Prop :=
  Forall (fun x => casefold (name x) ≠ find) l.

(** The state once the three opening records of [on_ready] are out. *)
Definition greeted (w : World) : World :=
  emit (INFO, "Member of " +:+ pretty (length (client_servers w)) +:+ " servers")
    (emit (INFO, "Call me " +:+ User.name (client_user w) +:+ " ("
                 +:+ User.id (client_user w) +:+ ")")
       (emit (INFO, "=== CONNECTED ===") w)).

End Vocabulary.

(** The state in which [on_ready] has found both entities and announced
    the channel it listens to. *)
Definition listening (server : Server.t) (channel : Channel.t) (w : World) : World :=
  emit (INFO, "Listening to #" +:+ Channel.name channel +:+ " on '"
              +:+ Server.name server +:+ "'")
    (set_discord_channel (Some channel)
       (set_discord_server (Some server) (greeted w))).

(** The three records every run of [on_ready] starts with. *)
Definition greeting (w : World) : list record :=
  [ (INFO, "=== CONNECTED ===");
    (INFO, "Call me " +:+ User.name (client_user w) +:+ " ("
           +:+ User.id (client_user w) +:+ ")");
    (INFO, "Member of " +:+ pretty (length (client_servers w)) +:+ " servers") ].

(** The time of the [n]-th wake-up of a task that starts sleeping at
    [now] and sleeps [I] each round. *)
Fixpoint wake_time (I now : Q) (n : nat) : Q :=
  match n with
  | O => now
  | S n' => wake_time I (now + I) n'
  end.

Definition thump : record := (INFO, "/thump/").

(** ** Running handlers: basic facts *)

Lemma emitted_emit r w : emitted (emit r w) = emitted w ++ [r].
Proof. reflexivity. Qed.

Lemma drop_own_prefix {A} (l extra : list A) : drop (length l) (l ++ extra) = extra.
Proof. induction l as [|x l IH]; [destruct extra|]; simpl; auto. Qed.

Lemma output_nothing {A} (m : M A) w r : m w = (r, w) → output m w = [].
Proof.
  intros E. unfold output. rewrite E. simpl.
  rewrite <- (app_nil_r (emitted w)) at 2. apply drop_own_prefix.
Qed.

Lemma output_silent {A} (m : M A) w :
  emitted (m w).2 = emitted w → output m w = [].
Proof.
  intros E. unfold output. rewrite E.
  rewrite <- (app_nil_r (emitted w)) at 2. apply drop_own_prefix.
Qed.

Lemma output_one {A} (m : M A) w r a :
  m w = (r, emit a w) → output m w = [a].
Proof. intros E. unfold output. rewrite E. simpl. apply drop_own_prefix. Qed.

Lemma output_three {A} (m : M A) w r a b c :
  m w = (r, emit c (emit b (emit a w))) → output m w = [a; b; c].
Proof.
  intros E. unfold output. rewrite E. simpl.
  rewrite <- !app_assoc. apply drop_own_prefix.
Qed.

Lemma Channel_ne_other (c target : Channel.t) :
  Channel.id c ≠ Channel.id target → Channel.ne c (Some target) = true.
Proof.
  intros D. simpl. destruct (String.eqb_spec (Channel.id target) (Channel.id c));
    [congruence | reflexivity].
Qed.

Lemma Channel_ne_same (c target : Channel.t) :
  Channel.id c = Channel.id target → Channel.ne c (Some target) = false.
Proof. intros E. simpl. rewrite E. now rewrite String.eqb_refl. Qed.

Ltac handler :=
  unfold on_message, on_message_edit, on_message_delete;
  unfold mbind, M_bind, mret, M_ret, gets, lift, logger_info, modify; simpl.

(** ** The message handlers *)

(** C5: a Created, Edited or Deleted event whose channel is not the
    resolved target channel is ignored by its handler: the handler returns
    normally, leaves the state as it was and emits no record. *)
Theorem other_channel_ignored (w : World) (target : Channel.t)
    (before message : Message.t) :
  discord_channel w = Some target →
  Channel.id (Message.channel message) ≠ Channel.id target →
  (on_message message w = (Ok tt, w) ∧ output (on_message message) w = [])
  ∧ (on_message_edit before message w = (Ok tt, w)
     ∧ output (on_message_edit before message) w = [])
  ∧ (on_message_delete message w = (Ok tt, w)
     ∧ output (on_message_delete message) w = []).
Proof.
  intros T D. apply Channel_ne_other in D.
  assert (on_message message w = (Ok tt, w)) as E1
    by (handler; now rewrite T, D).
  assert (on_message_edit before message w = (Ok tt, w)) as E2
    by (handler; now rewrite T, D).
  assert (on_message_delete message w = (Ok tt, w)) as E3
    by (handler; now rewrite T, D).
  eauto 10 using @output_nothing.
Qed.

(** C10: while [discord_channel] is still [None], the guard of each of
    the three handlers rejects every message channel, so every Created,
    Edited or Deleted event is ignored without a record. *)
Theorem unresolved_ignores_all (w : World) (before message : Message.t) :
  discord_channel w = None →
  Channel.ne (Message.channel message) (discord_channel w) = true
  ∧ (on_message message w = (Ok tt, w) ∧ output (on_message message) w = [])
  ∧ (on_message_edit before message w = (Ok tt, w)
     ∧ output (on_message_edit before message) w = [])
  ∧ (on_message_delete message w = (Ok tt, w)
     ∧ output (on_message_delete message) w = []).
Proof.
  intros T.
  assert (on_message message w = (Ok tt, w)) as E1
    by (handler; now rewrite T).
  assert (on_message_edit before message w = (Ok tt, w)) as E2
    by (handler; now rewrite T).
  assert (on_message_delete message w = (Ok tt, w)) as E3
    by (handler; now rewrite T).
  rewrite T. eauto 10 using @output_nothing.
Qed.

(** C4: an Edited event on the target channel emits nothing when the
    content is unchanged.  When the content changed and the author is a
    member of the server, it emits exactly three records: the transition
    line with both message ids, the old content, the new content (the
    last two behind a tab).  When the content changed and the author has
    no [nick] attribute, the handler raises [AttributeError] while it
    builds the transition line: none of the three records is written. *)
Theorem edit_records (w : World) (target : Channel.t) (before after : Message.t) :
  discord_channel w = Some target →
  Channel.id (Message.channel after) = Channel.id target →
  (Message.content before = Message.content after →
     on_message_edit before after w = (Ok tt, w)
     ∧ output (on_message_edit before after) w = [])
  ∧ (Message.content before ≠ Message.content after →
     (∀ m, Message.author after = Author.IsMember m →
        (on_message_edit before after w).1 = Ok tt
        ∧ output (on_message_edit before after) w =
            [ (INFO, "EDITED: <" +:+ nick_or_name m +:+ "> "
                     +:+ Message.id before +:+ "->" +:+ Message.id after);
              (INFO, tab +:+ Message.content before);
              (INFO, tab +:+ Message.content after) ])
     ∧ (∀ u, Message.author after = Author.IsUser u →
        on_message_edit before after w = (Raise AttributeError, w)
        ∧ output (on_message_edit before after) w = [])).
Proof.
  intros T S. apply Channel_ne_same in S. split; intros C.
  - assert (on_message_edit before after w = (Ok tt, w)) as E.
    { handler. rewrite T, S, C. now rewrite String.eqb_refl. }
    eauto using @output_nothing.
  - assert (String.eqb (Message.content before) (Message.content after) = false) as N
      by now apply String.eqb_neq.
    split.
    + intros m A. split.
      * handler. now rewrite T, S, N, A.
      * eapply output_three. handler. rewrite T, S, N, A. reflexivity.
    + intros u A.
      assert (on_message_edit before after w = (Raise AttributeError, w)) as E.
      { handler. now rewrite T, S, N, A. }
      eauto using @output_nothing.
Qed.

(** C7: a Created event on the target channel whose author is a member of
    the server emits exactly one record, [<author> content], where the
    author is the member's nickname when there is one and the member's
    name otherwise; nickname Bob and content hi give [<Bob> hi].  When the
    author has no [nick] attribute the handler raises [AttributeError]
    while it builds the line: no record is written. *)
Theorem created_record (w : World) (target : Channel.t) (message : Message.t) :
  discord_channel w = Some target →
  Channel.id (Message.channel message) = Channel.id target →
  (∀ m, Message.author message = Author.IsMember m →
     (on_message message w).1 = Ok tt
     ∧ output (on_message message) w =
         [ (INFO, "<" +:+ nick_or_name m +:+ "> " +:+ Message.content message) ]
     ∧ (∀ n, Member.nick m = Some n → n ≠ "" → nick_or_name m = n)
     ∧ (Member.nick m = None → nick_or_name m = Member.name m)
     ∧ (Member.nick m = Some "Bob" → Message.content message = "hi" →
          output (on_message message) w = [ (INFO, "<Bob> hi") ]))
  ∧ (∀ u, Message.author message = Author.IsUser u →
     on_message message w = (Raise AttributeError, w)
     ∧ output (on_message message) w = []).
Proof.
  intros T S. apply Channel_ne_same in S. split.
  - intros m A.
    assert (output (on_message message) w =
        [ (INFO, "<" +:+ nick_or_name m +:+ "> " +:+ Message.content message) ])
      as O.
    { eapply output_one. handler. rewrite T, S, A. reflexivity. }
    repeat split.
    + handler. now rewrite T, S, A.
    + exact O.
    + intros n N D. unfold nick_or_name. rewrite N. destruct n; congruence.
    + intros N. unfold nick_or_name. now rewrite N.
    + intros N C. rewrite O. unfold nick_or_name. rewrite N, C. reflexivity.
  - intros u A.
    assert (on_message message w = (Raise AttributeError, w)) as E.
    { handler. now rewrite T, S, A. }
    eauto using @output_nothing.
Qed.

(** ** [quit] *)

Lemma Task_cancel_twice (k : Task.t) : Task.cancel (Task.cancel k) = Task.cancel k.
Proof. destruct k as [iv []]; reflexivity. Qed.

Lemma Task_cancel_done (k : Task.t) : Task.alive k = false → Task.cancel k = k.
Proof. destruct k as [iv []]; cbn; intros D; try discriminate D; reflexivity. Qed.

Lemma Task_cancel_not_alive (k : Task.t) : Task.alive (Task.cancel k) = false.
Proof. destruct k as [iv []]; reflexivity. Qed.

(** C6: [quit] never raises and is idempotent.  One call leaves the client
    closed and no heartbeat task alive: it cancels the task, which changes
    nothing when no task was started or the task is already done, and
    closes the client, which changes nothing when it is closed already.  A
    second call returns the state of the first unchanged. *)
Theorem quit_idempotent (w : World) :
  (quit w).1 = Ok tt
  ∧ quit (quit w).2 = (Ok tt, (quit w).2)
  ∧ client_is_closed (quit w).2 = true
  ∧ heartbeat_alive (quit w).2 = false
  ∧ heartbeat_task (quit w).2 = Task.cancel <$> heartbeat_task w
  ∧ (heartbeat_alive w = false → heartbeat_task (quit w).2 = heartbeat_task w)
  ∧ (client_is_closed w = true →
       (quit w).2 = set_heartbeat_task (Task.cancel <$> heartbeat_task w) w)
  ∧ (heartbeat_alive w = false → client_is_closed w = true → (quit w).2 = w)
  ∧ output quit w = [].
Proof.
  destruct w as [cfg user servers closed task srv chan role recs].
  unfold output, quit, client_close, mbind, M_bind, mret, M_ret, gets, modify,
    heartbeat_alive.
  destruct task as [k|]; destruct closed; simpl;
    rewrite ?Task_cancel_twice, ?Task_cancel_not_alive;
    repeat split; try reflexivity; try congruence;
    try (intros D; now rewrite (Task_cancel_done k D));
    try (intros D _; now rewrite (Task_cancel_done k D));
    try (rewrite <- (app_nil_r recs) at 2; apply drop_own_prefix).
Qed.

(** ** The [BotConfig] getters *)

Section Config.
Context `{Builtins}.

Lemma config_prop_get_total name dt self :
  ∃ v, config_prop_get name dt self = Ok v.
Proof.
  unfold config_prop_get.
  destruct (BotConfig.config self !! default_section) as [sec|]; [|eauto].
  unfold try_except.
  match goal with |- ∃ v, match ?b with _ => _ end = _ => destruct b end; eauto.
Qed.

Lemma config_prop_get_unreadable name dt self :
  unreadable name dt self → config_prop_get name dt self = Ok None.
Proof.
  unfold config_prop_get, getboolean, getint, getfloat, SectionProxy_getconv,
    SectionProxy_get, convert, mbind, result_bind.
  intros [E | [(sec & E & N) | (sec & raw & s & E & N & I & C)]]; rewrite E.
  - reflexivity.
  - rewrite N. now destruct dt.
  - rewrite N, I. destruct dt; simpl in C; [tauto | now rewrite C ..].
Qed.

End Config.

(** C8: reading any [BotConfig] property ([log_path], [server_name],
    [channel_name], [send_interval], [token]) never raises, and when the
    default section is missing, the field is missing or the text does not
    convert to the property's datatype (a [send_interval] that is not a
    float), the value read is [None]. *)
Theorem config_reads_none `{Builtins} (self : BotConfig.t)
    (get : BotConfig.t → result (option value)) (name : string) (dt : datatype) :
  In (get, name, dt)
     [ (log_path, "log_path", Str);
       (server_name, "server_name", Str);
       (channel_name, "channel_name", Str);
       (send_interval, "send_interval", Float);
       (token, "token", Str) ] →
  get = config_prop_get name dt
  ∧ (∃ v, get self = Ok v)
  ∧ (unreadable name dt self → get self = Ok None).
Proof.
  intros I. cbn in I.
  assert (get = config_prop_get name dt) as ->.
  { repeat (destruct I as [I | I]; [now inversion I|]). destruct I. }
  auto using config_prop_get_total, config_prop_get_unreadable.
Qed.

(** ** Entity resolution in [on_ready] *)

Section Resolution.
Context `{Builtins}.

Lemma next_by_name_found {A} (name : A → string) l find e :
  next_by_name name l find = Ok e ↔ first_match name l find e.
Proof.
  unfold next_by_name, first_match. induction l as [|x l IH]; simpl.
  - split; [discriminate|]. intros (l1 & l2 & E & _). destruct l1; discriminate.
  - destruct (String.eqb_spec (casefold (name x)) find) as [Y|N].
    + split.
      * intros [= <-]. exists [], l. auto.
      * intros (l1 & l2 & E & M & F). destruct l1 as [|y l1].
        -- simpl in E. congruence.
        -- simpl in E. injection E as <- _. inversion F; subst. contradiction.
    + rewrite IH. split.
      * intros (l1 & l2 & -> & M & F). exists (x :: l1), l2. auto.
      * intros (l1 & l2 & E & M & F). destruct l1 as [|y l1]; simpl in E.
        -- injection E as -> _. contradiction.
        -- injection E as <- ->. inversion F; subst. eauto.
Qed.

Lemma next_by_name_missing {A} (name : A → string) l find :
  next_by_name name l find = Raise StopIteration ↔ no_match name l find.
Proof.
  unfold next_by_name, no_match. induction l as [|x l IH]; simpl.
  - split; auto.
  - destruct (String.eqb_spec (casefold (name x)) find) as [Y|N].
    + split; [discriminate|]. intros F. inversion F; subst. contradiction.
    + rewrite IH. split; [auto|]. intros F. now inversion F.
Qed.

Ltac ready :=
  unfold on_ready, mbind, M_bind, mret, M_ret, gets, modify, lift, raise,
    logger_info, logger_error, client_close; cbn.

Lemma on_ready_no_server w sname :
  server_name (config w) = Ok (Some (VStr sname)) →
  no_match Server.name (client_servers w) (casefold sname) →
  on_ready w =
    client_close
      (emit (ERROR, "Not a member of any server named '" +:+ sname +:+ "'!")
            (greeted w)).
Proof.
  intros C N. apply next_by_name_missing in N.
  ready. rewrite C. cbn. rewrite N. reflexivity.
Qed.

Lemma on_ready_no_channel w sname cname server :
  server_name (config w) = Ok (Some (VStr sname)) →
  first_match Server.name (client_servers w) (casefold sname) server →
  channel_name (config w) = Ok (Some (VStr cname)) →
  no_match Channel.name (Server.channels server) (casefold cname) →
  on_ready w =
    client_close
      (emit (ERROR, "'" +:+ Server.name server
                    +:+ "' does not have any channels named '" +:+ cname +:+ "'!")
            (set_discord_server (Some server) (greeted w))).
Proof.
  intros C S D N. apply next_by_name_found in S. apply next_by_name_missing in N.
  ready. rewrite C. cbn. rewrite S. cbn. rewrite D. cbn. rewrite N. reflexivity.
Qed.

Lemma on_ready_resolved w sname cname server channel :
  server_name (config w) = Ok (Some (VStr sname)) →
  first_match Server.name (client_servers w) (casefold sname) server →
  channel_name (config w) = Ok (Some (VStr cname)) →
  first_match Channel.name (Server.channels server) (casefold cname) channel →
  discord_server (on_ready w).2 = Some server
  ∧ discord_channel (on_ready w).2 = Some channel.
Proof.
  intros C S D N. apply next_by_name_found in S. apply next_by_name_found in N.
  ready. rewrite C. cbn. rewrite S. cbn. rewrite D. cbn. rewrite N. cbn.
  destruct (max_by_position (Server.roles server)); auto.
Qed.

Lemma on_ready_absent_server_name w :
  server_name (config w) = Ok None →
  on_ready w = (Raise AttributeError, greeted w).
Proof. intros C. ready. rewrite C. reflexivity. Qed.

End Resolution.

(** C2: resolution is by equality of case-folded names and takes the first
    match in iteration order.  [next_by_name] returns exactly the first
    entity whose folded name equals the folded configured name; [on_ready]
    stores the server and the channel found that way; and an entity named
    General is resolved by the configured names general and GENERAL. *)
Theorem resolution_case_insensitive `{Builtins} :
  (∀ A (name : A → string) (l : list A) (configured : string) (e : A),
     next_by_name name l (casefold configured) = Ok e
     ↔ first_match name l (casefold configured) e)
  ∧ (∀ w sname cname server channel,
       server_name (config w) = Ok (Some (VStr sname)) →
       channel_name (config w) = Ok (Some (VStr cname)) →
       first_match Server.name (client_servers w) (casefold sname) server →
       first_match Channel.name (Server.channels server) (casefold cname) channel →
       discord_server (on_ready w).2 = Some server
       ∧ discord_channel (on_ready w).2 = Some channel)
  ∧ (∀ A (name : A → string) (l1 l2 : list A) (e : A) (configured : string),
       name e = "General" →
       configured = "general" ∨ configured = "GENERAL" →
       Forall (fun x => casefold_ascii (name x) ≠ "general") l1 →
       @next_by_name ascii_builtins A name (l1 ++ e :: l2)
                     (casefold_ascii configured) = Ok e).
Proof.
  split; [|split].
  - intros. apply next_by_name_found.
  - intros w sname cname server channel C D S N.
    eapply on_ready_resolved; eauto.
  - intros A name l1 l2 e configured E C F.
    apply (next_by_name_found (H := ascii_builtins)).
    assert (casefold_ascii configured = "general") as ->
      by (destruct C as [-> | ->]; reflexivity).
    exists l1, l2. repeat split; [|exact F].
    cbn. now rewrite E.
Qed.

Lemma client_close_closes w : client_close w = (Ok tt, set_is_closed true w).
Proof. destruct w as [? ? ? [] ? ? ? ? ?]; reflexivity. Qed.

Lemma heartbeat_wake_closed k w :
  client_is_closed w = true →
  heartbeat_wake k w =
    (Ok tt, set_heartbeat_task (Some (Task.mk (Task.interval k) Task.Finished)) w).
Proof.
  intros C. unfold heartbeat_wake, mbind, M_bind, gets, modify. now rewrite C.
Qed.

Lemma heartbeat_wake_open k w :
  client_is_closed w = false →
  heartbeat_wake k w = (Ok tt, emit (INFO, "/thump/") w).
Proof.
  intros C. unfold heartbeat_wake, mbind, M_bind, gets, logger_info, modify.
  now rewrite C.
Qed.

(** C1 (as the code has it): when the configured server name matches no
    joined server, or the server is found and the configured channel name
    matches none of its channels, [on_ready] returns normally after one
    ERROR record and closes the client itself.  It does not go through
    [quit]: the heartbeat task is left exactly as it was, not cancelled.
    The task ends on its own: at its next wake-up it sees the closed
    client and returns without a record. *)
Theorem resolution_failure_closes `{Builtins} (w : World) (sname : string) :
  server_name (config w) = Ok (Some (VStr sname)) →
  no_match Server.name (client_servers w) (casefold sname)
  ∨ (∃ server cname,
       first_match Server.name (client_servers w) (casefold sname) server
       ∧ channel_name (config w) = Ok (Some (VStr cname))
       ∧ no_match Channel.name (Server.channels server) (casefold cname)) →
  (on_ready w).1 = Ok tt
  ∧ client_is_closed (on_ready w).2 = true
  ∧ discord_channel (on_ready w).2 = discord_channel w
  ∧ (∃ msg, output on_ready w =
              [ (INFO, "=== CONNECTED ===");
                (INFO, "Call me " +:+ User.name (client_user w) +:+ " ("
                       +:+ User.id (client_user w) +:+ ")");
                (INFO, "Member of " +:+ pretty (length (client_servers w))
                       +:+ " servers");
                (ERROR, msg) ])
  ∧ heartbeat_task (on_ready w).2 = heartbeat_task w
  ∧ (∀ k, heartbeat_task w = Some k →
       (heartbeat_wake k (on_ready w).2).1 = Ok tt
       ∧ output (heartbeat_wake k) (on_ready w).2 = []
       ∧ heartbeat_alive (heartbeat_wake k (on_ready w).2).2 = false).
Proof.
  intros C F.
  assert (∃ msg mid, on_ready w = (Ok tt, set_is_closed true (emit (ERROR, msg) mid))
                     ∧ emitted mid = emitted (greeted w)
                     ∧ heartbeat_task mid = heartbeat_task w
                     ∧ discord_channel mid = discord_channel w)
    as (msg & mid & E & R & T & D).
  { destruct F as [N | (server & cname & S & D & N)].
    - rewrite (on_ready_no_server w sname C N), client_close_closes. eauto 10.
    - rewrite (on_ready_no_channel w sname cname server C S D N), client_close_closes.
      eauto 10. }
  rewrite E. cbn. repeat split; auto.
  - exists msg. unfold output. rewrite E. cbn. rewrite R. unfold greeted. cbn.
    rewrite <- !app_assoc. apply drop_own_prefix.
  - rewrite heartbeat_wake_closed by reflexivity. cbn.
    rewrite <- (app_nil_r (_ ++ _)) at 2. apply drop_own_prefix.
Qed.

(** ** The heartbeat task *)

Lemma wake_time_closed_form (I now : Q) (n : nat) :
  (wake_time I now n == now + inject_Z (Z.of_nat n) * I)%Q.
Proof.
  revert now. induction n as [|n IH]; intros now.
  - cbn. ring.
  - cbn [wake_time]. rewrite IH, Nat2Z.inj_succ. unfold Z.succ.
    rewrite inject_Z_plus. ring.
Qed.

Lemma wake_time_later (I now : Q) (n : nat) :
  (0 < I)%Q → (now <= wake_time I now n)%Q.
Proof.
  intros P. revert now. induction n as [|n IH]; intros now; cbn.
  - apply Qle_refl.
  - specialize (IH (now + I)%Q). lra.
Qed.

Lemma emitted_thumps (n : nat) (w : World) :
  emitted (Nat.iter n (emit thump) w) = emitted w ++ repeat thump n.
Proof.
  induction n as [|n IH]; [cbn; now rewrite app_nil_r|].
  change (Nat.iter (S n) (emit thump) w) with (emit thump (Nat.iter n (emit thump) w)).
  rewrite emitted_emit, IH, <- app_assoc. f_equal.
  clear IH. induction n as [|n IH]; cbn; [reflexivity|]. now rewrite IH.
Qed.

Lemma iter_emit_shift (n : nat) (r : record) (w : World) :
  Nat.iter n (emit r) (emit r w) = emit r (Nat.iter n (emit r) w).
Proof.
  unfold Nat.iter. induction n as [|n IH]; cbn [nat_rect]; [reflexivity|].
  now rewrite IH.
Qed.

Lemma run_heartbeat_open (I : Q) (k : Task.t) (n : nat) :
  (0 < I)%Q →
  Task.state k = Task.Pending →
  Task.interval k = Some (VFloat I) →
  ∀ (fuel : nat) (now deadline : Q) (w : World),
    heartbeat_task w = Some k →
    client_is_closed w = false →
    (wake_time I now n <= deadline)%Q →
    (deadline < wake_time I now (S n))%Q →
    (n < fuel)%nat →
    run_heartbeat fuel now deadline w = Some (Nat.iter n (emit thump) w).
Proof.
  intros P S V. induction n as [|n IH]; intros fuel now deadline w T C L U F;
    (destruct fuel as [|fuel]; [lia|]); cbn [run_heartbeat];
    rewrite T, S, V; cbn [sleep_delay].
  - cbn in U. destruct (Qle_bool (now + I) deadline) eqn:B; [|reflexivity].
    apply Qle_bool_iff in B. lra.
  - assert (Qle_bool (now + I) deadline = true) as ->.
    { apply Qle_bool_iff. cbn in L. pose proof (wake_time_later I (now + I) n P). lra. }
    rewrite heartbeat_wake_open by exact C. cbn [snd]. fold thump.
    rewrite (IH fuel (now + I)%Q deadline (emit thump w)); auto; [|lia].
    now rewrite iter_emit_shift.
Qed.

Lemma run_heartbeat_done (k : Task.t) (fuel : nat) (now deadline : Q) (w : World) :
  heartbeat_task w = Some k →
  Task.alive k = false →
  (0 < fuel)%nat →
  run_heartbeat fuel now deadline w = Some w.
Proof.
  intros T A F. destruct fuel as [|fuel]; [lia|]. cbn. rewrite T.
  destruct k as [iv []]; cbn in *; congruence.
Qed.

Lemma run_heartbeat_closed (I : Q) (k : Task.t) (fuel : nat) (now deadline : Q)
    (w : World) :
  heartbeat_task w = Some k →
  Task.state k = Task.Pending →
  Task.interval k = Some (VFloat I) →
  client_is_closed w = true →
  (now + I <= deadline)%Q →
  (1 < fuel)%nat →
  run_heartbeat fuel now deadline w =
    Some (set_heartbeat_task (Some (Task.mk (Task.interval k) Task.Finished)) w).
Proof.
  intros T S V C L F. destruct fuel as [|[|fuel]]; [lia..|].
  cbn [run_heartbeat]. rewrite T, S, V. cbn [sleep_delay].
  apply Qle_bool_iff in L. rewrite L.
  rewrite heartbeat_wake_closed by exact C. cbn. now rewrite V.
Qed.

(** C3: a heartbeat task with a positive interval [I] does, after every
    sleep of [I]: return if the client is closed, and otherwise emit
    exactly one liveness record and sleep again.  With the client open, at
    any time from the end of the [n]-th period up to the end of the next
    the task has emitted exactly [n] records, one per period; once it is
    cancelled it emits nothing, whatever time goes by; and a closed client
    ends it at its next wake-up without a record. *)
Theorem heartbeat_one_line_per_period (I : Q) (k : Task.t) (w : World) :
  (0 < I)%Q →
  heartbeat_task w = Some k →
  Task.state k = Task.Pending →
  Task.interval k = Some (VFloat I) →
  (client_is_closed w = true →
     heartbeat_wake k w =
       (Ok tt, set_heartbeat_task (Some (Task.mk (Task.interval k) Task.Finished)) w)
     ∧ output (heartbeat_wake k) w = [])
  ∧ (client_is_closed w = false →
     heartbeat_wake k w = (Ok tt, emit thump w)
     ∧ output (heartbeat_wake k) w = [thump])
  ∧ (client_is_closed w = false →
     ∀ (n fuel : nat) (now deadline : Q),
       (now + inject_Z (Z.of_nat n) * I <= deadline)%Q →
       (deadline < now + inject_Z (Z.of_nat (S n)) * I)%Q →
       (n < fuel)%nat →
       run_heartbeat fuel now deadline w = Some (Nat.iter n (emit thump) w)
       ∧ emitted (Nat.iter n (emit thump) w) = emitted w ++ repeat thump n)
  ∧ (∀ (fuel : nat) (now deadline : Q),
       (0 < fuel)%nat →
       run_heartbeat fuel now deadline (set_heartbeat_task (Some (Task.cancel k)) w)
       = Some (set_heartbeat_task (Some (Task.cancel k)) w))
  ∧ (client_is_closed w = true →
     ∀ (fuel : nat) (now deadline : Q),
       (now + I <= deadline)%Q →
       (1 < fuel)%nat →
       ∃ w', run_heartbeat fuel now deadline w = Some w'
             ∧ emitted w' = emitted w
             ∧ heartbeat_alive w' = false).
Proof.
  intros P T S V. repeat split.
  - now apply heartbeat_wake_closed.
  - apply output_silent. now rewrite heartbeat_wake_closed.
  - now apply heartbeat_wake_open.
  - eapply output_one. now apply heartbeat_wake_open.
  - apply (run_heartbeat_open I k n P S V); auto;
      rewrite wake_time_closed_form; assumption.
  - apply emitted_thumps.
  - intros fuel now deadline F.
    apply (run_heartbeat_done (Task.cancel k)); auto using Task_cancel_not_alive.
  - intros C fuel now deadline L F. eexists. split.
    + apply (run_heartbeat_closed I k); eauto.
    + split; reflexivity.
Qed.

(** C9: with the [server_name] line missing from the configuration the
    getter returns [None], and [on_ready] then raises [AttributeError]
    at [config.server_name.casefold()]: no ERROR record is written and
    the client stays open. *)
Theorem absent_server_name_raises :
  @server_name ascii_builtins Scenario.cfg_nameless = Ok None
  ∧ (@on_ready ascii_builtins
       (Scenario.started Scenario.cfg_nameless [Scenario.test])).1
    = Raise AttributeError
  ∧ client_is_closed
      (@on_ready ascii_builtins
         (Scenario.started Scenario.cfg_nameless [Scenario.test])).2
    = false
  ∧ output (@on_ready ascii_builtins)
           (Scenario.started Scenario.cfg_nameless [Scenario.test])
    = [ (INFO, "=== CONNECTED ==="); (INFO, "Call me smf (99)");
        (INFO, "Member of 1 servers") ].
Proof. repeat split; vm_compute; reflexivity. Qed.

(** C1 as the specification words it fails: started by [main] with the
    scenario's configuration (server name Test) in a client whose only
    server is named elsewhere, [on_ready] closes the client and the
    heartbeat task is still alive, never cancelled. *)
Lemma resolution_failure_keeps_heartbeat :
  ¬ (∀ (B : Builtins) (w : World) (sname : string),
       @server_name B (config w) = Ok (Some (VStr sname)) →
       @no_match B _ Server.name (client_servers w) (@casefold B sname) →
       client_is_closed (@on_ready B w).2 = true
       ∧ heartbeat_alive (@on_ready B w).2 = false).
Proof.
  intros claim.
  destruct (claim ascii_builtins
                  (Scenario.started Scenario.cfg [Scenario.other]) "Test")
    as [_ A].
  - vm_compute; reflexivity.
  - repeat constructor. vm_compute. discriminate.
  - vm_compute in A. discriminate.
Qed.


(** ** The scenario, end to end *)

Lemma other_channel_ignored_at_scenario :
  discord_channel Scenario.active = Some Scenario.general
  ∧ output (on_message Scenario.aside) Scenario.active = []
  ∧ output (on_message_edit Scenario.hi Scenario.aside) Scenario.active = []
  ∧ output (on_message_delete Scenario.aside) Scenario.active = [].
Proof.
  assert (discord_channel Scenario.active = Some Scenario.general) as T
    by (vm_compute; reflexivity).
  destruct (other_channel_ignored Scenario.active Scenario.general
              Scenario.hi Scenario.aside T) as ([_ A] & [_ B] & [_ C]).
  - vm_compute. discriminate.
  - auto.
Defined.

Lemma unresolved_ignores_all_at_scenario :
  discord_channel Scenario.connecting = None
  ∧ output (on_message Scenario.hi) Scenario.connecting = []
  ∧ output (on_message_edit Scenario.hi Scenario.hi_edited) Scenario.connecting = []
  ∧ output (on_message_delete Scenario.hi) Scenario.connecting = [].
Proof.
  assert (discord_channel Scenario.connecting = None) as T
    by (vm_compute; reflexivity).
  destruct (unresolved_ignores_all Scenario.connecting Scenario.hi
              Scenario.hi_edited T) as (_ & [_ A] & [_ B] & [_ C]).
  auto.
Defined.

Lemma edit_records_at_scenario :
  output (on_message_edit Scenario.hi Scenario.hi_pinned) Scenario.active = []
  ∧ output (on_message_edit Scenario.hi Scenario.hi_edited) Scenario.active =
      [ (INFO, "EDITED: <Bob> 500->500"); (INFO, tab +:+ "hi");
        (INFO, tab +:+ "hi!") ]
  ∧ on_message_edit Scenario.notice Scenario.notice_edited Scenario.active
    = (Raise AttributeError, Scenario.active).
Proof.
  assert (discord_channel Scenario.active = Some Scenario.general) as T
    by (vm_compute; reflexivity).
  split; [|split].
  - apply (edit_records Scenario.active Scenario.general Scenario.hi
             Scenario.hi_pinned T); reflexivity.
  - destruct (edit_records Scenario.active Scenario.general Scenario.hi
                Scenario.hi_edited T) as (_ & D); [reflexivity|].
    destruct D as (M & _); [vm_compute; discriminate|].
    apply (M Scenario.bob). reflexivity.
  - destruct (edit_records Scenario.active Scenario.general Scenario.notice
                Scenario.notice_edited T) as (_ & D); [reflexivity|].
    destruct D as (_ & U); [vm_compute; discriminate|].
    apply (U Scenario.hook). reflexivity.
Defined.

Lemma created_record_at_scenario :
  output (on_message Scenario.hi) Scenario.active = [ (INFO, "<Bob> hi") ]
  ∧ on_message Scenario.notice Scenario.active
    = (Raise AttributeError, Scenario.active)
  ∧ output (on_message Scenario.notice) Scenario.active = [].
Proof.
  assert (discord_channel Scenario.active = Some Scenario.general) as T
    by (vm_compute; reflexivity).
  split.
  - destruct (created_record Scenario.active Scenario.general Scenario.hi T)
      as (M & _); [reflexivity|].
    destruct (M Scenario.bob eq_refl) as (_ & _ & _ & _ & B).
    apply B; reflexivity.
  - destruct (created_record Scenario.active Scenario.general Scenario.notice T)
      as (_ & U); [reflexivity|].
    apply (U Scenario.hook). reflexivity.
Defined.

Lemma config_reads_none_at_scenario :
  @send_interval ascii_builtins Scenario.cfg_soon = Ok None
  ∧ @server_name ascii_builtins Scenario.cfg_soon = Ok (Some (VStr "Test"))
  ∧ @token ascii_builtins Scenario.cfg_soon = Ok None
  ∧ @token ascii_builtins Scenario.cfg_empty = Ok None.
Proof.
  split; [|split; [vm_compute; reflexivity | split]].
  - apply (@config_reads_none ascii_builtins Scenario.cfg_soon
             send_interval "send_interval" Float).
    + cbn. tauto.
    + right. right.
      exists (list_to_map [("server_name", "Test"); ("send_interval", "soon")]),
        "soon", "soon".
      repeat split; vm_compute; reflexivity.
  - apply (@config_reads_none ascii_builtins Scenario.cfg_soon token "token" Str).
    + cbn. tauto.
    + right. left.
      exists (list_to_map [("server_name", "Test"); ("send_interval", "soon")]).
      split; vm_compute; reflexivity.
  - apply (@config_reads_none ascii_builtins Scenario.cfg_empty token "token" Str).
    + cbn. tauto.
    + left. vm_compute. reflexivity.
Defined.

Lemma resolution_case_insensitive_at_scenario :
  discord_server Scenario.active = Some Scenario.test
  ∧ discord_channel Scenario.active = Some Scenario.general
  ∧ @next_by_name ascii_builtins _ Channel.name
      [Scenario.random; Scenario.general] (casefold_ascii "GENERAL")
    = Ok Scenario.general.
Proof.
  destruct (@resolution_case_insensitive ascii_builtins) as (_ & R & G).
  destruct (R Scenario.connecting "Test" "general" Scenario.test Scenario.general)
    as [S C].
  - vm_compute; reflexivity.
  - vm_compute; reflexivity.
  - exists [Scenario.other], [].
    split; [reflexivity | split; [reflexivity|]].
    repeat constructor. vm_compute. discriminate.
  - exists [Scenario.random], [].
    split; [reflexivity | split; [reflexivity|]].
    repeat constructor. vm_compute. discriminate.
  - split; [exact S|]. split; [exact C|].
    apply (G _ Channel.name [Scenario.random] [] Scenario.general "GENERAL").
    + reflexivity.
    + now right.
    + repeat constructor. vm_compute. discriminate.
Defined.

Lemma resolution_failure_closes_at_scenario :
  client_is_closed (@on_ready ascii_builtins Scenario.stranded).2 = true
  ∧ heartbeat_task (@on_ready ascii_builtins Scenario.stranded).2
    = Some Scenario.ticker.
Proof.
  destruct (@resolution_failure_closes ascii_builtins Scenario.stranded "Test")
    as (_ & C & _ & _ & T & _).
  - vm_compute; reflexivity.
  - left. repeat constructor. vm_compute. discriminate.
  - split; [exact C|]. rewrite T. vm_compute. reflexivity.
Defined.

Lemma heartbeat_one_line_per_period_at_scenario :
  run_heartbeat 4 0 95 Scenario.active
  = Some (Nat.iter 3 (emit thump) Scenario.active).
Proof.
  destruct (heartbeat_one_line_per_period (inject_Z 30) Scenario.ticker
              Scenario.active) as (_ & _ & R & _).
  - reflexivity.
  - vm_compute; reflexivity.
  - reflexivity.
  - reflexivity.
  - apply (R eq_refl 3%nat 4%nat 0%Q 95%Q).
    + vm_compute. discriminate.
    + vm_compute. reflexivity.
    + lia.
Defined.


(** * Beyond the specification's claims *)

(** ** What the message handlers do and never do *)

Lemma emitted_emit_all rs w : emitted (emit_all rs w) = emitted w ++ rs.
Proof.
  revert w. induction rs as [|r rs IH]; intros w; cbn.
  - now rewrite app_nil_r.
  - unfold emit_all in IH. rewrite IH. cbn. now rewrite <- app_assoc.
Qed.

Lemma same_globals_emit_all rs w : same_globals w (emit_all rs w).
Proof.
  revert w. induction rs as [|r rs IH]; intros w; cbn.
  - repeat split.
  - specialize (IH (emit r w)). unfold emit_all in IH.
    unfold same_globals in *. cbn in IH. exact IH.
Qed.

Lemma output_emit_all {A} (m : M A) w r rs :
  m w = (r, emit_all rs w) → output m w = rs.
Proof.
  intros E. unfold output. rewrite E. cbn [snd].
  rewrite emitted_emit_all. apply drop_own_prefix.
Qed.

Ltac quiet G :=
  exists (Ok tt), []; split; [cbn; lia|]; split; [now left|];
  split; [split; [discriminate
                 | intros [R _]; cbn in R; rewrite ?G in R; discriminate]|];
  intros w <-; now rewrite ?G.

(** What an event does is fixed by the event and the target alone: how
    its handler ends, and a list of at most three records.  The handler
    raises exactly when it gets to read the author and the author has no
    [nick] attribute, and then it has logged nothing. *)
Lemma dispatch_shape (e : event) (target : option Channel.t) :
  ∃ r rs,
    (length rs ≤ 3)%nat
    ∧ (r = Ok tt ∨ (r = Raise AttributeError ∧ rs = []))
    ∧ (r = Raise AttributeError
       ↔ reads_author target e = true ∧ ∃ u, event_author e = Author.IsUser u)
    ∧ ∀ w, discord_channel w = target → dispatch e w = (r, emit_all rs w).
Proof.
  unfold reads_author, on_target.
  destruct e as [m | b a | m]; cbn [dispatch event_author event_channel]; handler.
  - destruct (Channel.ne (Message.channel m) target) eqn:G; [quiet G|].
    destruct (Message.author m) as [mem|u] eqn:A.
    + exists (Ok tt). eexists [_]. split; [cbn; lia|]. split; [now left|].
      split; [split; [discriminate | now intros [_ [u' U]]]|].
      intros w <-. rewrite G. reflexivity.
    + exists (Raise AttributeError), []. split; [cbn; lia|]. split; [now right|].
      split; [split; eauto|]. intros w <-. now rewrite G.
  - destruct (Channel.ne (Message.channel a) target) eqn:G; [quiet G|].
    destruct (String.eqb (Message.content b) (Message.content a)) eqn:C.
    { exists (Ok tt), []. split; [cbn; lia|]. split; [now left|].
      split; [split; [discriminate | now intros [R _]]|].
      intros w <-. now rewrite G. }
    destruct (Message.author a) as [mem|u] eqn:A.
    + exists (Ok tt). eexists [_; _; _]. split; [cbn; lia|]. split; [now left|].
      split; [split; [discriminate | now intros [_ [u' U]]]|].
      intros w <-. rewrite G. reflexivity.
    + exists (Raise AttributeError), []. split; [cbn; lia|]. split; [now right|].
      split; [split; eauto|]. intros w <-. now rewrite G.
  - destruct (Channel.ne (Message.channel m) target) eqn:G; [quiet G|].
    destruct (Message.author m) as [mem|u] eqn:A.
    + exists (Ok tt). eexists [_]. split; [cbn; lia|]. split; [now left|].
      split; [split; [discriminate | now intros [_ [u' U]]]|].
      intros w <-. rewrite G. reflexivity.
    + exists (Raise AttributeError), []. split; [cbn; lia|]. split; [now right|].
      split; [split; eauto|]. intros w <-. now rewrite G.
Qed.

(** X1: the three message handlers touch nothing but the log: every
    global and the client's state are as before, and the log is the old
    one followed by at most three new records.  A handler ends normally
    or with [AttributeError]; it raises exactly when the event passes the
    channel guard (and, for an edit, changed the content) and its author
    has no [nick] attribute, and then the state is as it was. *)
Theorem handlers_only_log (e : event) (w : World) :
  same_globals w (dispatch e w).2
  ∧ emitted (dispatch e w).2 = emitted w ++ output (dispatch e) w
  ∧ (length (output (dispatch e) w) ≤ 3)%nat
  ∧ ((dispatch e w).1 = Ok tt
     ∨ ((dispatch e w).1 = Raise AttributeError ∧ (dispatch e w).2 = w))
  ∧ ((dispatch e w).1 = Raise AttributeError
     ↔ reads_author (discord_channel w) e = true
       ∧ ∃ u, event_author e = Author.IsUser u).
Proof.
  destruct (dispatch_shape e (discord_channel w)) as (r & rs & L & R & I & E).
  specialize (E w eq_refl).
  rewrite (output_emit_all _ _ _ _ E), E. cbn [fst snd].
  split; [apply same_globals_emit_all|].
  split; [apply emitted_emit_all|].
  split; [exact L|]. split; [|exact I].
  destruct R as [-> | [-> ->]]; [now left | now right].
Qed.

Lemma same_globals_trans w1 w2 w3 :
  same_globals w1 w2 → same_globals w2 w3 → same_globals w1 w3.
Proof.
  unfold same_globals. intros (A1 & A2 & A3 & A4 & A5 & A6 & A7 & A8)
    (B1 & B2 & B3 & B4 & B5 & B6 & B7 & B8).
  repeat split; congruence.
Qed.

Lemma output_dispatch_target (e : event) (w1 w2 : World) :
  discord_channel w1 = discord_channel w2 →
  output (dispatch e) w1 = output (dispatch e) w2.
Proof.
  intros T.
  destruct (dispatch_shape e (discord_channel w2)) as (r & rs & _ & _ & _ & E).
  rewrite (output_emit_all _ _ _ _ (E w1 T)).
  now rewrite (output_emit_all _ _ _ _ (E w2 eq_refl)).
Qed.

(** X2: the log of a run of events is the old log followed, in delivery
    order, by what each event logs on its own: no event changes what a
    later one logs, and the globals are the same afterwards. *)
Theorem deliver_all_output (events : list event) (w : World) :
  same_globals w (deliver_all events w)
  ∧ emitted (deliver_all events w)
    = emitted w ++ flat_map (fun e => output (dispatch e) w) events.
Proof.
  assert (∀ w0 w, discord_channel w = discord_channel w0 →
            same_globals w (deliver_all events w)
            ∧ emitted (deliver_all events w)
              = emitted w ++ flat_map (fun e => output (dispatch e) w0) events)
    as F.
  { clear w. intros w0.
    induction events as [|e events IH]; intros w T.
    - cbn. rewrite app_nil_r. repeat split.
    - destruct (dispatch_shape e (discord_channel w0))
        as (r & rs & _ & _ & _ & E).
      pose proof (E w T) as Ew. pose proof (E w0 eq_refl) as E0.
      change (deliver_all (e :: events) w)
        with (deliver_all events (dispatch e w).2).
      rewrite Ew. cbn [snd].
      pose proof (same_globals_emit_all rs w) as G.
      destruct (IH (emit_all rs w)) as [G' L].
      { destruct G as (_ & _ & _ & _ & _ & _ & -> & _). exact T. }
      split; [eauto using same_globals_trans|].
      rewrite L, emitted_emit_all. cbn [flat_map].
      rewrite (output_emit_all _ _ _ _ E0). now rewrite app_assoc. }
  now apply F.
Qed.

Lemma dispatch_off_target (e : event) (w : World) :
  on_target (discord_channel w) e = false → dispatch e w = (Ok tt, w).
Proof.
  unfold on_target. intros G. apply negb_false_iff in G.
  destruct e as [m | b a | m]; cbn [dispatch event_channel] in *; handler;
    now rewrite G.
Qed.

(** X17: events of other channels leave no trace in a run: delivering a
    list of events ends in the very state reached by delivering only those
    that pass the channel guard, in the same order; before a target is
    resolved a run of any events changes nothing at all. *)
Theorem deliver_all_on_target_only (events : list event) (w : World) :
  deliver_all events w
  = deliver_all (List.filter (on_target (discord_channel w)) events) w
  ∧ (discord_channel w = None → deliver_all events w = w).
Proof.
  assert (∀ target w, discord_channel w = target →
            deliver_all events w
            = deliver_all (List.filter (on_target target) events) w) as F.
  { intros target. induction events as [|e events IH]; intros w0 T; [reflexivity|].
    cbn [List.filter].
    change (deliver_all (e :: events) w0)
      with (deliver_all events (dispatch e w0).2).
    destruct (on_target target e) eqn:G.
    - change (deliver_all (e :: List.filter (on_target target) events) w0)
        with (deliver_all (List.filter (on_target target) events) (dispatch e w0).2).
      apply IH.
      destruct (dispatch_shape e target) as (r & rs & _ & _ & _ & E).
      rewrite (E w0 T). cbn [snd].
      destruct (same_globals_emit_all rs w0) as (_ & _ & _ & _ & _ & _ & -> & _).
      exact T.
    - rewrite dispatch_off_target by now rewrite T. now apply IH. }
  split; [now apply F|].
  intros N. rewrite (F None w N).
  replace (List.filter (on_target None) events) with (@nil event); [reflexivity|].
  clear. induction events as [|e events IH]; [reflexivity|].
  cbn [List.filter]. now destruct e.
Qed.

(** X3: a Deleted event on the target channel whose author is a member
    of the server emits exactly one record, [DELTEATED: <author> content],
    the author being shown under the account name when the nickname is
    missing or is the empty string.  When the author has no [nick]
    attribute the handler raises [AttributeError] and writes nothing. *)
Theorem deleted_record (w : World) (target : Channel.t) (message : Message.t) :
  discord_channel w = Some target →
  Channel.id (Message.channel message) = Channel.id target →
  (∀ m, Message.author message = Author.IsMember m →
     (on_message_delete message w).1 = Ok tt
     ∧ output (on_message_delete message) w =
         [ (INFO, "DELTEATED: <" +:+ nick_or_name m +:+ "> "
                  +:+ Message.content message) ]
     ∧ (Member.nick m = Some "" ∨ Member.nick m = None →
          nick_or_name m = Member.name m))
  ∧ (∀ u, Message.author message = Author.IsUser u →
     on_message_delete message w = (Raise AttributeError, w)
     ∧ output (on_message_delete message) w = []).
Proof.
  intros T S. apply Channel_ne_same in S. split.
  - intros m A. repeat split.
    + handler. now rewrite T, S, A.
    + eapply output_one. handler. rewrite T, S, A. reflexivity.
    + intros [N | N]; unfold nick_or_name; now rewrite N.
  - intros u A.
    assert (on_message_delete message w = (Raise AttributeError, w)) as E.
    { handler. now rewrite T, S, A. }
    eauto using @output_nothing.
Qed.

(** ** [on_ready] beyond the failure paths *)

Lemma best_role_fold (rest done mid : list Role.t) (best : Role.t) :
  Forall (fun x => (Role.position x < Role.position best)%Z) done →
  Forall (fun x => (Role.position x <= Role.position best)%Z) mid →
  ∃ before after,
    done ++ best :: mid ++ rest
    = before ++
        fold_left (fun best x =>
                     if (Role.position best <? Role.position x)%Z then x else best)
                  rest best
        :: after
    ∧ Forall (fun x => (Role.position x
                        < Role.position
                            (fold_left (fun best x =>
                               if (Role.position best <? Role.position x)%Z
                               then x else best) rest best))%Z) before
    ∧ Forall (fun x => (Role.position x
                        <= Role.position
                             (fold_left (fun best x =>
                                if (Role.position best <? Role.position x)%Z
                                then x else best) rest best))%Z) after.
Proof.
  revert done mid best. induction rest as [|x rest IH]; intros done mid best D M.
  - exists done, mid. cbn. rewrite app_nil_r. auto.
  - cbn [fold_left]. destruct (Z.ltb_spec (Role.position best) (Role.position x)) as [L|L].
    + destruct (IH (done ++ best :: mid) [] x) as (before & after & E & B & A).
      * apply List.Forall_app. split.
        -- eapply List.Forall_impl; [|exact D]. cbn. intros; lia.
        -- constructor; [exact L|].
           eapply List.Forall_impl; [|exact M]. cbn. intros; lia.
      * constructor.
      * exists before, after. split; [|auto].
        rewrite <- E. cbn. rewrite <- !app_assoc. reflexivity.
    + destruct (IH done (mid ++ [x]) best) as (before & after & E & B & A).
      * exact D.
      * apply List.Forall_app. split; [exact M|]. constructor; [lia|constructor].
      * exists before, after. split; [|auto].
        rewrite <- E. rewrite <- !app_assoc. reflexivity.
Qed.

(** X4: the top role is the first role of greatest position: every role
    listed before it has a strictly smaller position and every role after
    it a smaller or equal one, so a tie goes to the role listed first.
    Only an empty role list makes the lookup raise ([ValueError]). *)
Theorem max_by_position_first_maximum (roles : list Role.t) :
  (max_by_position roles = Raise ValueError ↔ roles = [])
  ∧ (∀ e, max_by_position roles = Raise e → e = ValueError)
  ∧ (∀ top, max_by_position roles = Ok top →
       ∃ before after,
         roles = before ++ top :: after
         ∧ Forall (fun x => (Role.position x < Role.position top)%Z) before
         ∧ Forall (fun x => (Role.position x <= Role.position top)%Z) after).
Proof.
  destruct roles as [|r rest]; cbn [max_by_position].
  - repeat split; congruence.
  - split; [split; discriminate|]. split; [discriminate|].
    intros top [= <-].
    destruct (best_role_fold rest [] [] r) as (before & after & E & B & A);
      [constructor..|].
    exists before, after. cbn in E. auto.
Qed.

Ltac run_ready :=
  unfold on_ready, mbind, M_bind, mret, M_ret, gets, modify, lift, raise,
    logger_info, logger_error, client_close; cbn.

Section Ready.
Context `{Builtins}.

Lemma on_ready_found w sname cname server channel :
  server_name (config w) = Ok (Some (VStr sname)) →
  first_match Server.name (client_servers w) (casefold sname) server →
  channel_name (config w) = Ok (Some (VStr cname)) →
  first_match Channel.name (Server.channels server) (casefold cname) channel →
  on_ready w =
    match max_by_position (Server.roles server) with
    | Ok role =>
        (Ok tt,
         emit (INFO, "Treating members in '" +:+ Role.name role
                     +:+ "' a little bit better than everyone else")
              (set_top_role (Some role) (listening server channel w)))
    | Raise e => (Raise e, listening server channel w)
    end.
Proof.
  intros C S D N. apply next_by_name_found in S. apply next_by_name_found in N.
  run_ready. rewrite C. cbn. rewrite S. cbn. rewrite D. cbn. rewrite N. cbn.
  destruct (max_by_position (Server.roles server)); reflexivity.
Qed.

Lemma emitted_listening server channel w :
  emitted (listening server channel w)
  = emitted w ++ greeting w
      ++ [ (INFO, "Listening to #" +:+ Channel.name channel +:+ " on '"
                  +:+ Server.name server +:+ "'") ].
Proof. unfold listening, greeted, greeting. cbn. now rewrite <- !app_assoc. Qed.

Lemma next_by_name_raises {A} (name : A → string) l find e :
  next_by_name name l find = Raise e → e = StopIteration.
Proof. unfold next_by_name. destruct (List.find _ l); congruence. Qed.

End Ready.

(** X5: when the server and the channel are found and the server has a
    role, [on_ready] returns normally with the three globals set to the
    first matching server, its first matching channel and its top role,
    after exactly five INFO records; the client is not closed and the
    heartbeat task is not touched. *)
Theorem on_ready_success `{Builtins} (w : World) (sname cname : string)
    (server : Server.t) (channel : Channel.t) (role : Role.t) :
  server_name (config w) = Ok (Some (VStr sname)) →
  first_match Server.name (client_servers w) (casefold sname) server →
  channel_name (config w) = Ok (Some (VStr cname)) →
  first_match Channel.name (Server.channels server) (casefold cname) channel →
  max_by_position (Server.roles server) = Ok role →
  (on_ready w).1 = Ok tt
  ∧ discord_server (on_ready w).2 = Some server
  ∧ discord_channel (on_ready w).2 = Some channel
  ∧ top_role (on_ready w).2 = Some role
  ∧ client_is_closed (on_ready w).2 = client_is_closed w
  ∧ heartbeat_task (on_ready w).2 = heartbeat_task w
  ∧ output on_ready w =
      greeting w
      ++ [ (INFO, "Listening to #" +:+ Channel.name channel +:+ " on '"
                  +:+ Server.name server +:+ "'");
           (INFO, "Treating members in '" +:+ Role.name role
                  +:+ "' a little bit better than everyone else") ].
Proof.
  intros C S D N R. unfold output.
  rewrite (on_ready_found w sname cname server channel C S D N), R.
  cbn [fst snd]. repeat split.
  rewrite emitted_emit. cbn [emitted set_top_role].
  rewrite emitted_listening, <- !app_assoc. apply drop_own_prefix.
Qed.

(** X6: on a server that lists no role, [on_ready] raises [ValueError]
    from [max] only after the target is stored: the channel is announced
    and remembered, [top_role] keeps its old value, the client stays as it
    was, and a message a member creates on that channel is logged from
    then on. *)
Theorem on_ready_without_roles `{Builtins} (w : World) (sname cname : string)
    (server : Server.t) (channel : Channel.t) (message : Message.t)
    (m : Member.t) :
  server_name (config w) = Ok (Some (VStr sname)) →
  first_match Server.name (client_servers w) (casefold sname) server →
  channel_name (config w) = Ok (Some (VStr cname)) →
  first_match Channel.name (Server.channels server) (casefold cname) channel →
  Server.roles server = [] →
  Message.channel message = channel →
  Message.author message = Author.IsMember m →
  on_ready w = (Raise ValueError, listening server channel w)
  ∧ discord_channel (on_ready w).2 = Some channel
  ∧ top_role (on_ready w).2 = top_role w
  ∧ client_is_closed (on_ready w).2 = client_is_closed w
  ∧ (on_message message (on_ready w).2).1 = Ok tt
  ∧ output (on_message message) (on_ready w).2 =
      [ (INFO, "<" +:+ nick_or_name m +:+ "> " +:+ Message.content message) ].
Proof.
  intros C S D N R Ch A.
  rewrite (on_ready_found w sname cname server channel C S D N), R.
  cbn [max_by_position fst snd]. repeat split.
  - handler. now rewrite Ch, String.eqb_refl, A.
  - eapply output_one. handler. rewrite Ch, String.eqb_refl, A. reflexivity.
Qed.

(** X7: a configuration that lacks a name makes [on_ready] raise
    [AttributeError] at the [casefold] call, whatever the servers are.
    Without [server_name] nothing is resolved; without [channel_name] the
    server found has already been stored.  In both cases no ERROR record
    is written and the client is not closed. *)
Theorem on_ready_absent_names `{Builtins} (w : World) :
  (server_name (config w) = Ok None →
     on_ready w = (Raise AttributeError, greeted w))
  ∧ (∀ sname server,
       server_name (config w) = Ok (Some (VStr sname)) →
       first_match Server.name (client_servers w) (casefold sname) server →
       channel_name (config w) = Ok None →
       on_ready w = (Raise AttributeError,
                     set_discord_server (Some server) (greeted w)))
  ∧ client_is_closed (greeted w) = client_is_closed w
  ∧ emitted (greeted w) = emitted w ++ greeting w.
Proof.
  split; [|split; [|split]].
  - intros C. run_ready. rewrite C. reflexivity.
  - intros sname server C S D. apply next_by_name_found in S.
    run_ready. rewrite C. cbn. rewrite S. cbn. rewrite D. reflexivity.
  - reflexivity.
  - unfold greeted, greeting. cbn. now rewrite <- !app_assoc.
Qed.

Ltac settle :=
  let w' := fresh "w'" in
  let Hc := fresh "Hc" in
  let Hu := fresh "Hu" in
  let Hs := fresh "Hs" in
  split; [auto|]; intros w' Hc Hu Hs;
  run_ready; rewrite ?Hc, ?Hu, ?Hs;
  repeat match goal with
         | E : _ = _ |- _ => rewrite E; cbn
         end;
  unfold greeting; rewrite ?Hc, ?Hu, ?Hs;
  let Ec := fresh "Ec" in
  repeat split; destruct (client_is_closed w') eqn:Ec;
  cbn; rewrite ?Ec, ?Hc, ?Hu, ?Hs, <- ?app_assoc; reflexivity.

Section ReadyCases.
Context `{Builtins}.

(** Every run of [on_ready] is fixed by the configuration, the bot's
    user and the joined servers: the outcome [r], the globals it assigns,
    whether it closes the client and the records after the greeting. *)
Lemma on_ready_cases (w : World) :
  ∃ (r : result unit) (servs : option Server.t) (chan : option Channel.t)
    (role : option Role.t) (close : bool) (more : list record),
    (r = Ok tt ∨ r = Raise AttributeError ∨ r = Raise ValueError)
    ∧ ∀ w', config w' = config w →
            client_user w' = client_user w →
            client_servers w' = client_servers w →
            (on_ready w').1 = r
            ∧ config (on_ready w').2 = config w'
            ∧ client_user (on_ready w').2 = client_user w'
            ∧ client_servers (on_ready w').2 = client_servers w'
            ∧ heartbeat_task (on_ready w').2 = heartbeat_task w'
            ∧ discord_server (on_ready w').2
              = match servs with Some s => Some s | None => discord_server w' end
            ∧ discord_channel (on_ready w').2
              = match chan with Some c => Some c | None => discord_channel w' end
            ∧ top_role (on_ready w').2
              = match role with Some x => Some x | None => top_role w' end
            ∧ client_is_closed (on_ready w').2 = (close || client_is_closed w')%bool
            ∧ emitted (on_ready w').2 = emitted w' ++ greeting w ++ more.
Proof.
  destruct (config_prop_get_total "server_name" Str (config w)) as [sv E1].
  fold server_name in E1.
  destruct sv as [[sname|b|z|q]|];
    try solve [exists (Raise AttributeError), None, None, None, false, []; settle].
  destruct (next_by_name Server.name (client_servers w) (casefold sname))
    as [server|e2] eqn:E2.
  2:{ apply next_by_name_raises in E2 as E2'. subst e2.
      exists (Ok tt), None, None, None, true. eexists. settle. }
  destruct (config_prop_get_total "channel_name" Str (config w)) as [cv E3].
  fold channel_name in E3.
  destruct cv as [[cname|b|z|q]|];
    try solve [exists (Raise AttributeError), (Some server), None, None, false, []; settle].
  destruct (next_by_name Channel.name (Server.channels server) (casefold cname))
    as [channel|e4] eqn:E4.
  2:{ apply next_by_name_raises in E4 as E4'. subst e4.
      exists (Ok tt), (Some server), None, None, true. eexists. settle. }
  destruct (max_by_position (Server.roles server)) as [role|e5] eqn:E5.
  - exists (Ok tt), (Some server), (Some channel), (Some role), false. eexists.
    settle.
  - assert (e5 = ValueError) as ->.
    { destruct (Server.roles server); cbn in E5; congruence. }
    exists (Raise ValueError), (Some server), (Some channel), None, false.
    eexists. settle.
Qed.

End ReadyCases.

(** X8: whatever the configuration and the servers, [on_ready] leaves the
    configuration, the client's user and servers and the heartbeat task
    alone, never reopens a closed client, always writes its three greeting
    records first, and ends normally or with [AttributeError] or
    [ValueError]: the [StopIteration] of a failed lookup never escapes. *)
Theorem on_ready_frame `{Builtins} (w : World) :
  config (on_ready w).2 = config w
  ∧ client_user (on_ready w).2 = client_user w
  ∧ client_servers (on_ready w).2 = client_servers w
  ∧ heartbeat_task (on_ready w).2 = heartbeat_task w
  ∧ (client_is_closed w = true → client_is_closed (on_ready w).2 = true)
  ∧ (∃ more, emitted (on_ready w).2 = emitted w ++ greeting w ++ more)
  ∧ ((on_ready w).1 = Ok tt
     ∨ (on_ready w).1 = Raise AttributeError
     ∨ (on_ready w).1 = Raise ValueError).
Proof.
  destruct (on_ready_cases w) as (r & servs & chan & role & close & more & R & F).
  destruct (F w eq_refl eq_refl eq_refl)
    as (F1 & F2 & F3 & F4 & F5 & _ & _ & _ & F9 & F10).
  repeat split; auto.
  - intros C. rewrite F9, C. now destruct close.
  - eauto.
  - now rewrite F1.
Qed.

(** X9: a second ready event (the client reconnecting) finds the same
    entities again: it ends the same way, repeats the same records and
    leaves every global and the client's state as the first run left
    them. *)
Theorem on_ready_again `{Builtins} (w : World) :
  (on_ready (on_ready w).2).1 = (on_ready w).1
  ∧ same_globals (on_ready w).2 (on_ready (on_ready w).2).2
  ∧ output on_ready (on_ready w).2 = output on_ready w.
Proof.
  destruct (on_ready_cases w) as (r & servs & chan & role & close & more & R & F).
  destruct (F w eq_refl eq_refl eq_refl)
    as (F1 & F2 & F3 & F4 & F5 & F6 & F7 & F8 & F9 & F10).
  destruct (F (on_ready w).2 F2 F3 F4)
    as (G1 & G2 & G3 & G4 & G5 & G6 & G7 & G8 & G9 & G10).
  split; [congruence|]. split.
  - unfold same_globals. repeat split; auto.
    + rewrite G9, F9. now destruct close.
    + rewrite G6, F6. now destruct servs.
    + rewrite G7, F7. now destruct chan.
    + rewrite G8, F8. now destruct role.
  - unfold output. rewrite G10, F10. now rewrite !drop_own_prefix.
Qed.

(** ** Reading, writing and constructing a [BotConfig] *)

Section ReadWrite.
Context `{Builtins}.

Lemma config_prop_get_value name dt self v :
  config_prop_get name dt self = Ok (Some v)
  ↔ ∃ sec raw s, BotConfig.config self !! default_section = Some sec
                 ∧ sec !! name = Some raw
                 ∧ before_get sec raw = Ok s
                 ∧ converts dt s v.
Proof.
  unfold config_prop_get, getboolean, getint, getfloat, SectionProxy_getconv,
    SectionProxy_get, convert, converts, try_except, returned, mbind, result_bind.
  split.
  - destruct (BotConfig.config self !! default_section) as [sec|]; [|discriminate].
    destruct (sec !! name) as [raw|] eqn:E2; [|destruct dt; discriminate].
    destruct (before_get sec raw) as [s|e] eqn:E3; [|destruct dt; discriminate].
    intros E. exists sec, raw, s.
    split; [reflexivity|]. split; [exact E2|]. split; [exact E3|].
    destruct dt; cbn in E.
    + now injection E as <-.
    + destruct (convert_to_boolean s) as [b|]; [|discriminate].
      exists b. split; [reflexivity | now injection E as <-].
    + destruct (int_of s) as [z|]; [|discriminate].
      exists z. split; [reflexivity | now injection E as <-].
    + destruct (float_of s) as [q|]; [|discriminate].
      exists q. split; [reflexivity | now injection E as <-].
  - intros (sec & raw & s & -> & -> & -> & C).
    destruct dt; cbn.
    + now subst.
    + destruct C as (b & -> & ->). reflexivity.
    + destruct C as (z & -> & ->). reflexivity.
    + destruct C as (q & -> & ->). reflexivity.
Qed.

Lemma config_prop_get_swallows name dt self sec raw e :
  BotConfig.config self !! default_section = Some sec →
  sec !! name = Some raw →
  before_get sec raw = Raise e →
  config_prop_get name dt self = Ok None.
Proof.
  unfold config_prop_get, getboolean, getint, getfloat, SectionProxy_getconv,
    SectionProxy_get, try_except, returned, mbind, result_bind.
  intros -> -> ->. now destruct dt.
Qed.

End ReadWrite.

(** X10: a property reads a value exactly when the default section holds
    the field, its text interpolates, and the result converts to the
    property's datatype; the value read is that conversion, so a string
    property gives a string and a float property a float.  A field whose
    interpolation raises reads as [None] for every datatype. *)
Theorem config_read_value `{Builtins} (name : string) (dt : datatype)
    (self : BotConfig.t) :
  (∀ v, config_prop_get name dt self = Ok (Some v)
        ↔ ∃ sec raw s, BotConfig.config self !! default_section = Some sec
                       ∧ sec !! name = Some raw
                       ∧ before_get sec raw = Ok s
                       ∧ converts dt s v)
  ∧ (∀ sec raw e, BotConfig.config self !! default_section = Some sec →
                  sec !! name = Some raw →
                  before_get sec raw = Raise e →
                  config_prop_get name dt self = Ok None).
Proof.
  split.
  - intros v. apply config_prop_get_value.
  - intros sec raw e. apply config_prop_get_swallows.
Qed.

Section SetGet.
Context `{Builtins} `{Writing}.

Lemma setitem_stores sec key x raw :
  stores x raw →
  SectionProxy_setitem sec key (py_str x) = Ok (<[optionxform key := raw]> sec).
Proof.
  unfold SectionProxy_setitem, mbind, result_bind.
  intros [[-> ->] | [N ->]]; [reflexivity|].
  apply String.eqb_neq in N. now rewrite N.
Qed.

Lemma config_prop_set_stored name x raw self :
  stores x raw →
  config_prop_set name (Some x) self
  = (Ok tt,
     BotConfig.mk (BotConfig.path self)
       (<[default_section :=
            <[optionxform name := raw]>
              (default ∅ (BotConfig.config self !! default_section))]>
          (BotConfig.config self))).
Proof.
  intros S. unfold config_prop_set.
  destruct (BotConfig.config self !! default_section) as [sec|] eqn:E.
  - rewrite E. cbn [default]. now rewrite (setitem_stores _ _ _ _ S).
  - rewrite lookup_insert_eq. cbn [default].
    rewrite (setitem_stores _ _ _ _ S). now rewrite insert_insert_eq.
Qed.

End SetGet.

(** X11: writing a property and reading it back.  When the parser accepts
    the text of the value and the property's name is already in the
    parser's option form, the write returns normally, the default section
    then holds that text under the name, every other field and every other
    section is as before, and the property reads exactly what the stored
    text interpolates and converts to: a text that does not convert to the
    property's datatype is stored all the same and then reads as [None]. *)
Theorem config_set_then_get `{Builtins} `{Writing} (name : string) (x : value)
    (raw : string) (self : BotConfig.t) :
  optionxform name = name →
  stores x raw →
  (config_prop_set name (Some x) self).1 = Ok tt
  ∧ BotConfig.path (config_prop_set name (Some x) self).2 = BotConfig.path self
  ∧ ∃ sec,
      BotConfig.config (config_prop_set name (Some x) self).2 !! default_section
      = Some sec
      ∧ sec !! name = Some raw
      ∧ (∀ other, other ≠ name →
           sec !! other
           = default ∅ (BotConfig.config self !! default_section) !! other)
      ∧ (∀ section, section ≠ default_section →
           BotConfig.config (config_prop_set name (Some x) self).2 !! section
           = BotConfig.config self !! section)
      ∧ (∀ dt s, before_get sec raw = Ok s →
           (∀ v, config_prop_get name dt (config_prop_set name (Some x) self).2
                 = Ok (Some v) ↔ converts dt s v)
           ∧ ((∀ v, ¬ converts dt s v) →
              config_prop_get name dt (config_prop_set name (Some x) self).2
              = Ok None)).
Proof.
  intros X S. rewrite (config_prop_set_stored name x raw self S), X.
  cbn [fst snd BotConfig.path BotConfig.config].
  split; [reflexivity|]. split; [reflexivity|].
  eexists. split; [apply lookup_insert_eq|].
  split; [apply lookup_insert_eq|].
  split; [intros other N; now apply lookup_insert_ne|].
  split; [intros section N; now apply lookup_insert_ne|].
  intros dt s B.
  assert (∀ v, config_prop_get name dt
                 (BotConfig.mk (BotConfig.path self)
                    (<[default_section :=
                         <[name := raw]>
                           (default ∅ (BotConfig.config self !! default_section))]>
                       (BotConfig.config self)))
               = Ok (Some v) ↔ converts dt s v) as V.
  { intros v. rewrite config_prop_get_value. cbn [BotConfig.config]. split.
    - intros (sec & raw' & s' & E1 & E2 & E3 & C).
      rewrite lookup_insert_eq in E1. injection E1 as <-.
      rewrite lookup_insert_eq in E2. injection E2 as <-.
      rewrite B in E3. now injection E3 as <-.
    - intros C. eexists _, raw, s.
      split; [apply lookup_insert_eq|]. split; [apply lookup_insert_eq|]. auto. }
  split; [exact V|]. intros N.
  destruct (config_prop_get_total name dt
              (BotConfig.mk (BotConfig.path self)
                 (<[default_section :=
                      <[name := raw]>
                        (default ∅ (BotConfig.config self !! default_section))]>
                    (BotConfig.config self)))) as [[v|] E]; [|exact E].
  apply V in E. now destruct (N v).
Qed.

(** X12: a write that stores nothing changes no property.  Writing [None]
    returns the object untouched; a write whose text the parser refuses
    raises, and afterwards the path and every property of every datatype
    read as they did before the call. *)
Theorem config_set_rejected `{Builtins} `{Writing} (name : string) (x : value)
    (e : exn) (self : BotConfig.t) :
  py_str x ≠ "" →
  before_set (py_str x) = Raise e →
  config_prop_set name None self = (Ok tt, self)
  ∧ (config_prop_set name (Some x) self).1 = Raise e
  ∧ BotConfig.path (config_prop_set name (Some x) self).2 = BotConfig.path self
  ∧ ∀ name' dt,
      config_prop_get name' dt (config_prop_set name (Some x) self).2
      = config_prop_get name' dt self.
Proof.
  intros N B. split; [reflexivity|].
  unfold config_prop_set, SectionProxy_setitem, mbind, result_bind.
  apply String.eqb_neq in N. rewrite N, B.
  repeat split. intros name' dt. cbn [snd].
  unfold config_prop_get. cbn [BotConfig.config].
  destruct (BotConfig.config self !! default_section) as [sec|] eqn:E.
  - now rewrite E.
  - rewrite lookup_insert_eq.
    unfold getboolean, getint, getfloat, SectionProxy_getconv, SectionProxy_get,
      mbind, result_bind.
    rewrite lookup_empty. now destruct dt.
Qed.

(** X13: constructing a [BotConfig] from a path that is not a file.  When
    the path's directory is not writable the constructor raises
    [ValueError]; when it is, the object is built without reading
    anything, it keeps the path, and every property of it reads [None].
    For a path that is a file the directory is never asked about: the
    constructor does not raise [ValueError]. *)
Theorem BotConfig_init_missing_file `{Builtins} `{FileSystem} (path : string) :
  (isfile path = false → access_W_OK (dirname path) = false →
     BotConfig_init path = InitRaised ValueError)
  ∧ (isfile path = false → access_W_OK (dirname path) = true →
     ∃ self, BotConfig_init path = Built self
             ∧ BotConfig.path self = path
             ∧ ∀ name dt, config_prop_get name dt self = Ok None)
  ∧ (isfile path = true →
     BotConfig_init path
     = match read path with
       | Some parser => Built (BotConfig.mk path parser)
       | None => ReadRaised
       end).
Proof.
  unfold BotConfig_init. repeat split.
  - now intros -> ->.
  - intros -> ->. cbn [negb andb]. eexists.
    split; [reflexivity|]. split; [reflexivity|].
    intros name dt. apply config_prop_get_unreadable. right. left.
    exists ∅. split; [apply lookup_singleton_eq | apply lookup_empty].
  - now intros ->.
Qed.

(** ** The heartbeat from [main] to [quit] *)

(** X14: after [quit] the heartbeat is silent for good: whatever the
    state [quit] was called in, driving the event loop afterwards up to
    any deadline changes nothing and emits nothing. *)
Theorem quit_silences_heartbeat (w : World) (fuel : nat) (now deadline : Q) :
  run_heartbeat (S fuel) now deadline (quit w).2 = Some (quit w).2
  ∧ output quit w = [].
Proof.
  split.
  - destruct w as [cfg user servers closed task srv chan role recs].
    unfold quit, client_close, mbind, M_bind, mret, M_ret, gets, modify.
    destruct task as [[iv []]|]; destruct closed; reflexivity.
  - apply output_silent.
    destruct w as [cfg user servers closed task srv chan role recs].
    unfold quit, client_close, mbind, M_bind, mret, M_ret, gets, modify.
    destruct task as [k|]; destruct closed; reflexivity.
Qed.


Lemma main_start_state `{Builtins} (w : World) (v : option value) :
  send_interval (config w) = Ok v →
  main_start w
  = (Ok tt, set_heartbeat_task (Some (Task.mk v Task.Pending))
              (emit (INFO, "=== STARTED ===") w)).
Proof.
  intros E. unfold main_start, mbind, M_bind, gets, lift, modify, logger_info.
  cbn. now rewrite E.
Qed.


(** X16: with no usable [send_interval] (no default section, no such
    field, or a text that is not a float) [main] still starts: it logs
    its start and creates the task with the interval [None].  That task
    fails with [TypeError] the first time the event loop runs it, before
    any liveness record, and stays failed. *)
Theorem main_without_interval `{Builtins} (w : World) (fuel : nat)
    (now deadline : Q) :
  unreadable "send_interval" Float (config w) →
  (main_start w).1 = Ok tt
  ∧ heartbeat_task (main_start w).2 = Some (Task.mk None Task.Pending)
  ∧ ∃ w', run_heartbeat (S fuel) now deadline (main_start w).2 = Some w'
          ∧ heartbeat_task w' = Some (Task.mk None (Task.Failed TypeError))
          ∧ emitted w' = emitted w ++ [ (INFO, "=== STARTED ===") ]
          ∧ run_heartbeat (S fuel) now deadline w' = Some w'.
Proof.
  intros U. apply config_prop_get_unreadable in U. fold send_interval in U.
  rewrite (main_start_state w _ U). cbn [fst snd].
  split; [reflexivity|]. split; [reflexivity|].
  eexists. split; [reflexivity|]. repeat split.
Qed.

(** ** The added properties on the scenario *)

Lemma deleted_record_at_scenario :
  output (on_message_delete Fixtures.boo) Scenario.active
  = [ (INFO, "DELTEATED: <casper> boo") ].
Proof.
  assert (discord_channel Scenario.active = Some Scenario.general) as T
    by (vm_compute; reflexivity).
  destruct (deleted_record Scenario.active Scenario.general Fixtures.boo T)
    as (M & _); [reflexivity|].
  destruct (M Fixtures.ghost eq_refl) as (_ & O & N).
  rewrite O, N; [reflexivity | now left].
Defined.

Lemma max_by_position_first_maximum_at_scenario :
  max_by_position (Server.roles Fixtures.tied) = Ok Fixtures.mods
  ∧ ∃ before after,
      Server.roles Fixtures.tied = before ++ Fixtures.mods :: after
      ∧ Forall (fun x => (Role.position x < 2)%Z) before
      ∧ Forall (fun x => (Role.position x <= 2)%Z) after.
Proof.
  split; [reflexivity|].
  apply (max_by_position_first_maximum (Server.roles Fixtures.tied)).
  reflexivity.
Defined.

Lemma on_ready_success_at_scenario :
  top_role (@on_ready ascii_builtins
              (Scenario.started Scenario.cfg [Scenario.other; Fixtures.tied])).2
  = Some Fixtures.mods
  ∧ client_is_closed
      (@on_ready ascii_builtins
         (Scenario.started Scenario.cfg [Scenario.other; Fixtures.tied])).2
    = false.
Proof.
  destruct (@on_ready_success ascii_builtins
              (Scenario.started Scenario.cfg [Scenario.other; Fixtures.tied])
              "Test" "general" Fixtures.tied Scenario.general Fixtures.mods)
    as (_ & _ & _ & R & C & _).
  - vm_compute; reflexivity.
  - exists [Scenario.other], [].
    split; [reflexivity | split; [reflexivity|]].
    repeat constructor. vm_compute. discriminate.
  - vm_compute; reflexivity.
  - exists [], []. split; [reflexivity | split; [reflexivity|]]. constructor.
  - reflexivity.
  - split; [exact R|]. rewrite C. vm_compute. reflexivity.
Defined.

Lemma on_ready_without_roles_at_scenario :
  (@on_ready ascii_builtins (Scenario.started Scenario.cfg [Fixtures.bare])).1
  = Raise ValueError
  ∧ output (on_message Scenario.hi)
      (@on_ready ascii_builtins (Scenario.started Scenario.cfg [Fixtures.bare])).2
    = [ (INFO, "<Bob> hi") ].
Proof.
  destruct (@on_ready_without_roles ascii_builtins
              (Scenario.started Scenario.cfg [Fixtures.bare])
              "Test" "general" Fixtures.bare Scenario.general Scenario.hi
              Scenario.bob)
    as (E & _ & _ & _ & _ & O).
  - vm_compute; reflexivity.
  - exists [], []. split; [reflexivity | split; [reflexivity|]]. constructor.
  - vm_compute; reflexivity.
  - exists [], []. split; [reflexivity | split; [reflexivity|]]. constructor.
  - reflexivity.
  - reflexivity.
  - reflexivity.
  - split; [now rewrite E | exact O].
Defined.

Lemma on_ready_absent_names_at_scenario :
  (@on_ready ascii_builtins
     (Scenario.started Scenario.cfg_nameless [Scenario.test])).1
  = Raise AttributeError
  ∧ @on_ready ascii_builtins
      (Scenario.started Fixtures.cfg_server_only [Scenario.test])
    = (Raise AttributeError,
       set_discord_server (Some Scenario.test)
         (greeted (Scenario.started Fixtures.cfg_server_only [Scenario.test]))).
Proof.
  split.
  - destruct (@on_ready_absent_names ascii_builtins
                (Scenario.started Scenario.cfg_nameless [Scenario.test]))
      as (A & _).
    rewrite A; [reflexivity|]. vm_compute; reflexivity.
  - destruct (@on_ready_absent_names ascii_builtins
                (Scenario.started Fixtures.cfg_server_only [Scenario.test]))
      as (_ & A & _).
    apply (A "Test" Scenario.test).
    + vm_compute; reflexivity.
    + exists [], []. split; [reflexivity | split; [reflexivity|]]. constructor.
    + vm_compute; reflexivity.
Defined.

Lemma config_read_value_at_scenario :
  @send_interval ascii_builtins Scenario.cfg = Ok (Some (VFloat (inject_Z 30))).
Proof.
  apply (@config_read_value ascii_builtins "send_interval" Float Scenario.cfg).
  exists (list_to_map [("server_name", "Test"); ("channel_name", "general");
                       ("send_interval", "30"); ("token", "abc")]), "30", "30".
  split; [vm_compute; reflexivity|]. split; [vm_compute; reflexivity|].
  split; [reflexivity|]. exists (inject_Z 30). split; reflexivity.
Defined.

Lemma config_set_then_get_at_scenario :
  @token ascii_builtins
    (@config_prop_set ascii_writing "token" (Some (VStr "xyz")) Scenario.cfg_empty).2
  = Ok (Some (VStr "xyz"))
  ∧ @send_interval ascii_builtins
      (@config_prop_set ascii_writing "send_interval" (Some (VStr "soon"))
         Scenario.cfg).2
    = Ok None.
Proof.
  split.
  - destruct (@config_set_then_get ascii_builtins ascii_writing "token"
                (VStr "xyz") "xyz" Scenario.cfg_empty)
      as (_ & _ & sec & _ & _ & _ & _ & G).
    + reflexivity.
    + right. split; [discriminate | reflexivity].
    + apply (G Str "xyz"); reflexivity.
  - destruct (@config_set_then_get ascii_builtins ascii_writing "send_interval"
                (VStr "soon") "soon" Scenario.cfg)
      as (_ & _ & sec & _ & _ & _ & _ & G).
    + reflexivity.
    + right. split; [discriminate | reflexivity].
    + apply (G Float "soon"); [reflexivity|].
      intros v (q & Q & _). vm_compute in Q. discriminate.
Defined.

Lemma config_set_rejected_at_scenario :
  (@config_prop_set ascii_writing "token" (Some (VStr "100%")) Scenario.cfg).1
  = Raise ValueError
  ∧ @token ascii_builtins
      (@config_prop_set ascii_writing "token" (Some (VStr "100%")) Scenario.cfg).2
    = @token ascii_builtins Scenario.cfg.
Proof.
  destruct (@config_set_rejected ascii_builtins ascii_writing "token"
              (VStr "100%") ValueError Scenario.cfg) as (_ & R & _ & G).
  - discriminate.
  - reflexivity.
  - split; [exact R | apply G].
Defined.

Lemma BotConfig_init_missing_file_at_scenario :
  @BotConfig_init Fixtures.empty_disk "/etc/bot.ini" = InitRaised ValueError
  ∧ ∃ self, @BotConfig_init Fixtures.empty_disk "/srv/bot/bot.ini" = Built self
            ∧ @token ascii_builtins self = Ok None.
Proof.
  split.
  - apply (@BotConfig_init_missing_file ascii_builtins Fixtures.empty_disk
             "/etc/bot.ini"); reflexivity.
  - destruct (@BotConfig_init_missing_file ascii_builtins Fixtures.empty_disk
                "/srv/bot/bot.ini") as (_ & B & _).
    destruct (B eq_refl eq_refl) as (self & E & _ & G).
    exists self. split; [exact E | apply G].
Defined.


Lemma main_without_interval_at_scenario :
  ∃ w', run_heartbeat 1 0 95
          (@main_start ascii_builtins
             (Scenario.initial Scenario.cfg_soon [Scenario.test])).2 = Some w'
        ∧ heartbeat_task w' = Some (Task.mk None (Task.Failed TypeError))
        ∧ emitted w' = [ (INFO, "=== STARTED ===") ].
Proof.
  destruct (@main_without_interval ascii_builtins
              (Scenario.initial Scenario.cfg_soon [Scenario.test]) 0 0%Q 95%Q)
    as (_ & _ & w' & R & T & E & _).
  - right. right.
    exists (list_to_map [("server_name", "Test"); ("send_interval", "soon")]),
      "soon", "soon".
    repeat split; vm_compute; reflexivity.
  - exists w'. auto.
Defined.
